(** * nest-circuit-breaker: the circuit-breaker engine, its store and its keys

    A shallow embedding of [src/services/circuit-breaker.service.ts]
    ([CircuitBreakerService]), [src/services/redis.service.ts]
    ([RedisService]), the [UseCircuitBreaker] decorator, the interceptor,
    the module and the constants file, followed by the properties the
    specification states about them.

    Conventions of the model.
    - A JavaScript number that the engine handles ([threshold], [timeout],
      what [parseInt] returns) is a [JS.number]: NaN, an infinity, or a
      double that is an integer.  An integer of [Z] written where a number
      is expected stands for the number that literal denotes, that is the
      nearest double ([JS.toDouble]); up to 2^53 in magnitude this is the
      integer itself.  Numbers with a fractional part are outside the model.
    - A string is the sequence of bytes Redis holds, read as UTF-8.
    - A promise is a computation in the monad [M]: it takes the world (the
      Redis database, the log of requests sent to it, and the environment of
      the wrapped operation) and either resolves with a value or rejects
      with an exception.
    - The Redis server is modelled at the level of its commands, after the
      Redis command reference (GET, SET, DEL, INCR, EXPIRE, TTL) as of
      Redis 6.2; time does not pass inside the model, so a positive TTL
      stays as it was set, and the clock plays no part in what EXPIRE
      accepts.  Failures of the connection itself are outside the model. *)

From Stdlib Require Import ZArith String Ascii List Bool Lia.
From Stdlib Require Import DecimalString DecimalZ DecimalPos.
From stdpp Require Import base option list strings gmap.

Local Open Scope string_scope.
Local Open Scope Z_scope.

(* ===================================================================== *)
(** ** What a promise settles to *)
(* ===================================================================== *)

(** What a rejected promise carries: Nest's [HttpException] with its
    status, or any other [Error]. *)
Inductive exn : Type :=
| HttpException (response : string) (status : Z)
| Error (message : string).

Inductive outcome (A : Type) : Type :=
| Resolved (a : A)
| Rejected (e : exn).
Arguments Resolved {A} a.
Arguments Rejected {A} e.

(* ===================================================================== *)
(** ** JavaScript values the engine inspects *)
(* ===================================================================== *)

Module JS.

(** The values a wrapped operation returns and a fallback holds.  An
    object or array is represented by an opaque reference, except for an
    object with a [then] method, which is given by what it settles to. *)
#[warnings="-register-all"]
Inductive value : Type :=
| Undefined
| Null
| Bool (b : bool)
| Num (n : Z)
| NaN
| Str (s : string)
| Obj (ref : nat)
| Thenable (settles : outcome value).

(** ToBoolean: what [if (v)] tests. *)
Definition truthy (v : value) : bool :=
  match v with
  | Undefined | Null | NaN => false
  | Bool b => b
  | Num n => negb (n =? 0)
  | Str s => negb (String.eqb s "")
  | Obj _ | Thenable _ => true
  end.

(** A defaulted parameter [p = d]: only [undefined] takes the default. *)
Definition default_param (d v : value) : value :=
  match v with Undefined => d | _ => v end.

(** What the promise of an [async] function settles to when the function
    returns [v]: a thenable is followed, any other value is the result. *)
Fixpoint settle (v : value) : outcome value :=
  match v with
  | Thenable (Resolved v') => settle v'
  | Thenable (Rejected e) => Rejected e
  | _ => Resolved v
  end.

(** *** Numbers *)

Inductive number : Type :=
| NotANumber
| NegInfinity
| Int (z : Z)
| Infinity.

#[global] Instance number_eq_dec : EqDecision number.
Proof. solve_decision. Defined.

Definition MAX_SAFE_INTEGER : Z := 2 ^ 53 - 1.

(** Rounding to the nearest of [q] and [q + 1], where [r / den] is the part
    beyond [q]; a tie goes to the even one. *)
Definition roundHalfEven (q r den : Z) : Z :=
  if 2 * r <? den then q
  else if den <? 2 * r then q + 1
  else if Z.even q then q else q + 1.

(** The double nearest to an integer: exact up to 2^53 in magnitude, then
    rounded to 53 significant bits, and infinite from 2^1024 on. *)
Definition toDouble (z : Z) : number :=
  let a := Z.abs z in
  if a <=? 2 ^ 53 then Int z
  else
    let e := Z.log2 a - 52 in
    let m := roundHalfEven (a / 2 ^ e) (a mod 2 ^ e) (2 ^ e) in
    if 2 ^ 1024 <=? m * 2 ^ e
    then (if 0 <? z then Infinity else NegInfinity)
    else Int (Z.sgn z * (m * 2 ^ e)).

(** [a >= b]: false as soon as one side is NaN. *)
Definition ge_number (a b : number) : bool :=
  match a, b with
  | NotANumber, _ | _, NotANumber => false
  | _, NegInfinity => true
  | Infinity, _ => true
  | NegInfinity, _ => false
  | Int _, Infinity => false
  | Int x, Int y => y <=? x
  end.

(** The quotient [a / d] of two positive integers at the binary scale [k]:
    the integer part of [a * 2^k / d], what is left, and the divisor. *)
Definition scaled (a d k : Z) : Z * Z * Z :=
  let num := if 0 <=? k then a * 2 ^ k else a in
  let den := if 0 <=? k then d else d * 2 ^ (- k) in
  (num / den, num mod den, den).

(** [Math.floor(t / d)] for a non-zero integer [t] and a positive integer
    [d], computed as the machine does: the quotient is first rounded to a
    double (a significand of 53 bits at the scale [k]), then floored. *)
Definition quotientFloor (t d : Z) : Z :=
  let a := Z.abs t in
  let k1 := 53 - (Z.log2 a - Z.log2 d) in
  let k := if fst (fst (scaled a d k1)) <? 2 ^ 53 then k1 else k1 - 1 in
  let '(q, r, den) := scaled a d k in
  let m := Z.sgn t * roundHalfEven q r den in
  if 0 <=? k then m / 2 ^ k else m * 2 ^ (- k).

(** [Math.floor(x / d)] for a number [x] and a positive integer [d]. *)
Definition floorDiv (x : number) (d : Z) : number :=
  match x with
  | Int 0 => Int 0
  | Int t => Int (quotientFloor t d)
  | other => other
  end.

(** *** [parseInt] *)

Definition byte (c : ascii) : N := N_of_ascii c.

(** White space that [parseInt] skips (WhiteSpace and LineTerminator of
    ECMA-262), by its UTF-8 encoding.  One byte: TAB, LF, VT, FF, CR and
    SPACE. *)
Definition isWhiteSpace (c : ascii) : bool :=
  let n := byte c in
  ((9 <=? n) && (n <=? 13) || (n =? 32))%N.

(** Two bytes: U+00A0. *)
Definition isWhiteSpace2 (c1 c2 : ascii) : bool :=
  ((byte c1 =? 194) && (byte c2 =? 160))%N.

(** Three bytes: U+1680, U+2000 to U+200A, U+2028, U+2029, U+202F, U+205F,
    U+3000 and U+FEFF. *)
Definition isWhiteSpace3 (c1 c2 c3 : ascii) : bool :=
  let a := byte c1 in
  let b := byte c2 in
  let c := byte c3 in
  ((a =? 225) && (b =? 154) && (c =? 128)
   || (a =? 226) && (b =? 128)
      && ((128 <=? c) && (c <=? 138) || (c =? 168) || (c =? 169) || (c =? 175))
   || (a =? 226) && (b =? 129) && (c =? 159)
   || (a =? 227) && (b =? 128) && (c =? 128)
   || (a =? 239) && (b =? 187) && (c =? 191))%N.

Fixpoint trimStart (s : string) : string :=
  match s with
  | EmptyString => s
  | String c1 r1 =>
      if isWhiteSpace c1 then trimStart r1
      else if (byte c1 <? 128)%N then s
      else
        match r1 with
        | EmptyString => s
        | String c2 r2 =>
            if isWhiteSpace2 c1 c2 then trimStart r2
            else
              match r2 with
              | EmptyString => s
              | String c3 r3 =>
                  if isWhiteSpace3 c1 c2 c3 then trimStart r3 else s
              end
        end
  end.

(** The value of a character as a digit: 0-9, then a-z and A-Z as 10-35. *)
Definition digitValue (c : ascii) : option Z :=
  let n := Z.of_N (N_of_ascii c) in
  if (48 <=? n) && (n <=? 57) then Some (n - 48)
  else if (97 <=? n) && (n <=? 122) then Some (n - 87)
  else if (65 <=? n) && (n <=? 90) then Some (n - 55)
  else None.

(** The longest prefix of [s] made of digits of radix [R]. *)
Fixpoint takeDigits (R : Z) (s : string) : list Z :=
  match s with
  | String c r =>
      match digitValue c with
      | Some d => if d <? R then d :: takeDigits R r else []
      | None => []
      end
  | EmptyString => []
  end.

Definition mathInt (R : Z) (ds : list Z) : Z :=
  fold_left (fun acc d => acc * R + d) ds 0.

(** The integer [parseInt(string)] reads, with no radix argument (ECMA-262,
    19.2.5): skip leading white space, read a sign, switch to radix 16
    after [0x] or [0X], read digits as long as there are some.  [None]
    when there is no digit. *)
Definition readInteger (s : string) : option Z :=
  let S := trimStart s in
  let '(sign, S1) :=
    match S with
    | String "-" r => (-1, r)
    | String "+" r => (1, r)
    | _ => (1, S)
    end in
  let '(R, S2) :=
    match S1 with
    | String "0" (String "x" r) => (16, r)
    | String "0" (String "X" r) => (16, r)
    | _ => (10, S1)
    end in
  match takeDigits R S2 with
  | [] => None
  | ds => Some (sign * mathInt R ds)
  end.

(** [parseInt(string)]: the integer read, as a number; NaN when there is
    no digit.  (Past the twentieth significant digit an implementation may
    read zeros; Node does not, and neither does this definition.) *)
Definition parseInt (s : string) : number :=
  match readInteger s with
  | Some z => toDouble z
  | None => NotANumber
  end.

(** The decimal text of an integer, as INCR stores it. *)
Definition toString (z : Z) : string :=
  NilZero.string_of_int (Z.to_int z).

End JS.

(** An integer written where a number is expected is that number. *)
Coercion JS.toDouble : Z >-> JS.number.

(* ===================================================================== *)
(** ** The Redis server, command by command *)
(* ===================================================================== *)

Module Redis.

(** A key holds a string and, when one was set, a time to live in seconds. *)
Record entry : Type := Entry { val : string; ttl : option Z }.

Abbreviation db := (gmap string entry).

(** The commands a client sends.  The seconds of EXPIRE are the JavaScript
    number the client was given, which it writes out as text: the decimal
    digits of an integer, or a text the server cannot read as one. *)
Inductive command : Type :=
| GET (key : string)
| SET (key value : string)
| DEL (key : string)
| INCR (key : string)
| EXPIRE (key : string) (seconds : JS.number)
| TTL (key : string).

#[global] Instance command_eq_dec : EqDecision command.
Proof. solve_decision. Defined.

Inductive reply : Type :=
| Nil
| Bulk (s : string)
| Integer (z : Z)
| Ok
| ReplyError (message : string).

Definition is_error (r : reply) : bool :=
  match r with
  | ReplyError _ => true
  | _ => false
  end.

Definition LLONG_MIN : Z := - 2 ^ 63.
Definition LLONG_MAX : Z := 2 ^ 63 - 1.

(** The integer a stored string stands for, as INCR reads it: the string
    has to be the canonical decimal form of a signed 64-bit integer (no
    white space, no [+], no leading zero, no [-0]). *)
Definition string2ll (s : string) : option Z :=
  match JS.readInteger s with
  | Some z =>
      if String.eqb (JS.toString z) s && (LLONG_MIN <=? z) && (z <=? LLONG_MAX)
      then Some z else None
  | None => None
  end.

Definition get (k : string) (d : db) : reply * db :=
  match d !! k with
  | Some e => (Bulk (val e), d)
  | None => (Nil, d)
  end.

(** SET stores the value and discards a time to live. *)
Definition set (k v : string) (d : db) : reply * db :=
  (Ok, <[k := Entry v None]> d).

Definition del (k : string) (d : db) : reply * db :=
  match d !! k with
  | Some _ => (Integer 1, delete k d)
  | None => (Integer 0, d)
  end.

(** INCR creates the key at 1, keeps the time to live of an existing key,
    and replies with an error, changing nothing, when the value is not an
    integer or the increment would overflow. *)
Definition incr (k : string) (d : db) : reply * db :=
  match d !! k with
  | None => (Integer 1, <[k := Entry "1" None]> d)
  | Some e =>
      match string2ll (val e) with
      | Some v =>
          if v <? LLONG_MAX
          then (Integer (v + 1), <[k := Entry (JS.toString (v + 1)) (ttl e)]> d)
          else (ReplyError "ERR increment or decrement would overflow", d)
      | None => (ReplyError "ERR value is not an integer or out of range", d)
      end
  end.

(** EXPIRE first reads its seconds: a text that is not a signed 64-bit
    integer, or seconds that do not fit once turned into milliseconds,
    are refused, whether the key exists or not.  Then it sets the time to
    live of an existing key; a timeout that is not positive deletes the
    key at once. *)
Definition expire (k : string) (seconds : JS.number) (d : db) : reply * db :=
  match seconds with
  | JS.Int s =>
      if (s <? LLONG_MIN) || (LLONG_MAX <? s)
      then (ReplyError "ERR value is not an integer or out of range", d)
      else if (s <? LLONG_MIN ÷ 1000) || (LLONG_MAX ÷ 1000 <? s)
      then (ReplyError "ERR invalid expire time in 'expire' command", d)
      else
        match d !! k with
        | None => (Integer 0, d)
        | Some e =>
            if s <=? 0 then (Integer 1, delete k d)
            else (Integer 1, <[k := Entry (val e) (Some s)]> d)
        end
  | _ => (ReplyError "ERR value is not an integer or out of range", d)
  end.

Definition ttl_of (k : string) (d : db) : reply * db :=
  match d !! k with
  | None => (Integer (-2), d)
  | Some e => (Integer (default (-1) (ttl e)), d)
  end.

Definition exec_command (c : command) (d : db) : reply * db :=
  match c with
  | GET k => get k d
  | SET k v => set k v d
  | DEL k => del k d
  | INCR k => incr k d
  | EXPIRE k s => expire k s d
  | TTL k => ttl_of k d
  end.

(** The server runs the commands it receives one after the other. *)
Fixpoint run (cs : list command) (d : db) : list reply * db :=
  match cs with
  | [] => ([], d)
  | c :: cs' =>
      let '(r, d1) := exec_command c d in
      let '(rs, d2) := run cs' d1 in
      (r :: rs, d2)
  end.

(** Several clients send their commands at the same time: the server
    serves one client's next command, then another's, in any order that
    keeps each client's own order.  [Interleave ps sched] says that [sched]
    is such a merge of the command sequences [ps]. *)
Inductive Interleave : list (list command) -> list command -> Prop :=
| Interleave_done ps :
    Forall (fun p => p = []) ps -> Interleave ps []
| Interleave_step ps i c rest sched :
    ps !! i = Some (c :: rest) ->
    Interleave (<[i := rest]> ps) sched ->
    Interleave ps (c :: sched).

End Redis.

(* ===================================================================== *)
(** ** Promises: state and exceptions *)
(* ===================================================================== *)

(** A request of the client to the server: one command, or a pipeline of
    commands sent in one round trip. *)
Inductive request : Type :=
| Single (c : Redis.command)
| Pipeline (cs : list Redis.command).

(** The world a call runs in: the database, the requests sent so far
    (oldest first), and the environment [E] of the wrapped operation. *)
Record world (E : Type) : Type :=
  World { db : Redis.db; sent : list request; env : E }.
Arguments World {E} db sent env.
Arguments db {E} w.
Arguments sent {E} w.
Arguments env {E} w.

Definition M (E A : Type) : Type := world E -> outcome A * world E.

Definition ret {E A} (a : A) : M E A := fun w => (Resolved a, w).

Definition throw {E A} (e : exn) : M E A := fun w => (Rejected e, w).

(** [return v] at the end of an [async] function: the promise follows a
    thenable [v]. *)
Definition return_ {E} (v : JS.value) : M E JS.value :=
  fun w => (JS.settle v, w).

Definition bind {E A B} (m : M E A) (f : A -> M E B) : M E B :=
  fun w =>
    match m w with
    | (Resolved a, w1) => f a w1
    | (Rejected e, w1) => (Rejected e, w1)
    end.

(** [try { body } catch (error) { handler }] *)
Definition try_catch {E A} (body : M E A) (handler : exn -> M E A) : M E A :=
  fun w =>
    match body w with
    | (Resolved a, w1) => (Resolved a, w1)
    | (Rejected e, w1) => handler e w1
    end.

Notation "'let*' x ':=' m 'in' k" := (bind m (fun x => k))
  (at level 10, x name, m at level 100, k at level 200).

(** The wrapped operation [fn], by what [await fn()] gives: it acts on its
    own environment, and resolves with a value (which, having been
    awaited, is not a thenable) or rejects. *)
Definition operation (E : Type) : Type := E -> outcome JS.value * E.

(** [await fn()] *)
Definition call {E} (fn : operation E) : M E JS.value :=
  fun w =>
    let '(o, e1) := fn (env w) in
    (o, World (db w) (sent w) e1).

(* ===================================================================== *)
(** ** [RedisService] *)
(* ===================================================================== *)

Module RedisService.

(** One command sent on its own: the server runs it, the request is logged. *)
Definition send {E} (c : Redis.command) : M E Redis.reply :=
  fun w =>
    let '(r, d1) := Redis.exec_command c (db w) in
    match r with
    | Redis.ReplyError m => (Rejected (Error m), World d1 (sent w ++ [Single c]) (env w))
    | _ => (Resolved r, World d1 (sent w ++ [Single c]) (env w))
    end.

(** [get(key): Promise<string | null>] *)
Definition get {E} (key : string) : M E (option string) :=
  let* r := send (Redis.GET key) in
  ret (match r with Redis.Bulk s => Some s | _ => None end).

(** [set(key, value)] *)
Definition set {E} (key value : string) : M E unit :=
  let* _ := send (Redis.SET key value) in ret tt.

(** [del(key)] *)
Definition del {E} (key : string) : M E unit :=
  let* _ := send (Redis.DEL key) in ret tt.

(** [incr(key): Promise<number>] *)
Definition incr {E} (key : string) : M E Z :=
  let* r := send (Redis.INCR key) in
  ret (match r with Redis.Integer n => n | _ => 0 end).

(** [expire(key, seconds)] *)
Definition expire {E} (key : string) (seconds : JS.number) : M E unit :=
  let* _ := send (Redis.EXPIRE key seconds) in ret tt.

(** One entry [[error, result]] of what [pipeline.exec()] resolves to. *)
Definition result_of (r : Redis.reply) : option string * Redis.reply :=
  match r with
  | Redis.ReplyError m => (Some m, r)
  | _ => (None, r)
  end.

(** [executePipeline(commands)]: the commands are queued on a pipeline and
    sent in one round trip; [exec()] resolves to one [[error, result]]
    pair per command, in the order they were queued.  An error reply of
    one command does not stop the following ones.  Here the pipeline runs
    with no other client in between; [Redis.Interleave] gives the runs
    with other clients. *)
Definition executePipeline {E} (commands : list Redis.command)
  : M E (option (list (option string * Redis.reply))) :=
  fun w =>
    let '(rs, d1) := Redis.run commands (db w) in
    (Resolved (Some (map result_of rs)),
     World d1 (sent w ++ [Pipeline commands]) (env w)).

End RedisService.

(* ===================================================================== *)
(** ** Constants *)
(* ===================================================================== *)

Definition SERVICE_UNAVAILABLE : Z := 503.
Definition TOO_MANY_REQUESTS : Z := 429.

Inductive CircuitBreakerState : Type := OPEN | CLOSED.

Definition CIRCUIT_BREAKER_KEY_PREFIX : string := "circuit-breaker".

(** [CircuitBreakerConfig]: every property is optional.  [None] is a
    property the object does not have; for [threshold], [timeout] and
    [key], [Some None] is a property that is there with the value
    [undefined] (for [fallbackResult] that is [Some JS.Undefined]). *)
Record CircuitBreakerConfig : Type := Config {
  threshold : option (option JS.number);
  timeout : option (option JS.number);
  fallbackResult : option JS.value;
  key : option (option string)
}.

Definition empty_config : CircuitBreakerConfig := Config None None None None.

Definition DEFAULT_CIRCUIT_BREAKER_CONFIG : CircuitBreakerConfig :=
  Config (Some (Some (JS.Int 3))) (Some (Some (JS.Int 10000))) None None.

(** [CircuitBreakerModuleOptions], as far as the engine reads it. *)
Record CircuitBreakerModuleOptions : Type := Options {
  serviceName : option string
}.

(* ===================================================================== *)
(** ** [CircuitBreakerService] *)
(* ===================================================================== *)

Module CircuitBreakerService.

Section Service.

Context {E : Type}.
Variable config : CircuitBreakerModuleOptions.

(** [this.config.serviceName ?? 'service'] *)
Definition getCircuitBreakerServiceName : string :=
  match serviceName config with
  | Some n => n
  | None => "service"
  end.

Definition getCircuitBreakerKey (key : string) : string :=
  CIRCUIT_BREAKER_KEY_PREFIX +:+ ":" +:+ getCircuitBreakerServiceName +:+ ":" +:+ key.

(** The decision on the value read from the store: [!count] holds of
    [null] and of the empty string. *)
Definition statusOf (count : option string) (threshold : JS.number)
  : CircuitBreakerState :=
  match count with
  | None => CLOSED
  | Some "" => CLOSED
  | Some c => if JS.ge_number (JS.parseInt c) threshold then OPEN else CLOSED
  end.

Definition getCircuitBreakerStatus (key : string) (threshold : JS.number)
  : M E CircuitBreakerState :=
  let* count := RedisService.get (getCircuitBreakerKey key) in
  ret (statusOf count threshold).

(** The pipeline that records one failure, with
    [Math.floor(timeout / 1000)] seconds. *)
Definition failurePipeline (circuitBreakerKey : string) (timeout : JS.number)
  : list Redis.command :=
  [Redis.INCR circuitBreakerKey;
   Redis.EXPIRE circuitBreakerKey (JS.floorDiv timeout 1000)].

(** [results?.[i]?.[0] !== null]: true when the results are missing, have
    no entry [i], or entry [i] carries an error. *)
Definition errorAt (results : option (list (option string * Redis.reply)))
  (i : nat) : bool :=
  match results with
  | Some l =>
      match l !! i with
      | Some (None, _) => false
      | _ => true
      end
  | None => true
  end.

Definition handleCircuitBreakerError (key : string) (timeout : JS.number)
  : M E unit :=
  let circuitBreakerKey := getCircuitBreakerKey key in
  let* results :=
    RedisService.executePipeline (failurePipeline circuitBreakerKey timeout) in
  if errorAt results 0 then
    throw (Error "Failed to increment circuit breaker error count")
  else if errorAt results 1 then
    throw (Error "Failed to set circuit breaker error count expiration")
  else ret tt.

(** The test in the [catch] block of [execute]:
    [error instanceof HttpException &&
     (error.getStatus() >= 500 || error.getStatus() === 429)]. *)
Definition countsAsFailure (error : exn) : bool :=
  match error with
  | HttpException _ status => (500 <=? status) || (status =? 429)
  | Error _ => false
  end.

(** [execute]; the state has two values, so the [return] that closes the
    source function is never reached. *)
Definition execute (fn : operation E) (key : string)
  (threshold timeout : JS.number) (fallbackResult : JS.value) : M E JS.value :=
  let fallbackResult := JS.default_param JS.Null fallbackResult in
  let* circuitBreakerStatus := getCircuitBreakerStatus key threshold in
  match circuitBreakerStatus with
  | OPEN =>
      if JS.truthy fallbackResult then return_ fallbackResult
      else throw (HttpException "Service is unavailable - Circuit Breaker is open"
                    SERVICE_UNAVAILABLE)
  | CLOSED =>
      try_catch
        (let* result := call fn in
         let* _ := RedisService.del (getCircuitBreakerKey key) in
         ret result)
        (fun error =>
           let* _ :=
             if countsAsFailure error
             then handleCircuitBreakerError key timeout
             else ret tt in
           throw error)
  end.

End Service.

End CircuitBreakerService.

(* ===================================================================== *)
(** ** The [UseCircuitBreaker] decorator *)
(* ===================================================================== *)

Module Decorator.

(** [{ ...a, ...b }]: a property [b] has wins, be its value [undefined]. *)
Definition spread (a b : CircuitBreakerConfig) : CircuitBreakerConfig :=
  Config
    (match threshold b with Some x => Some x | None => threshold a end)
    (match timeout b with Some x => Some x | None => timeout a end)
    (match fallbackResult b with Some x => Some x | None => fallbackResult a end)
    (match key b with Some x => Some x | None => key a end).

Definition finalConfig (classConfig methodConfig : CircuitBreakerConfig)
  : CircuitBreakerConfig :=
  spread (spread DEFAULT_CIRCUIT_BREAKER_CONFIG classConfig) methodConfig.

(** The key the decorator builds from the name of the decorated class and
    the merged configuration; [if (finalConfig.key)] fails for a missing,
    an undefined and an empty key. *)
Definition redisKey (className : string) (final : CircuitBreakerConfig) : string :=
  match key final with
  | Some (Some k) =>
      if String.eqb k "" then "circuit-breaker:" +:+ className
      else "circuit-breaker:" +:+ className +:+ ":" +:+ k
  | _ => "circuit-breaker:" +:+ className
  end.

(** [finalConfig.threshold!] and [finalConfig.timeout!] as [execute] uses
    them: in a comparison and in a division [undefined] acts as NaN. *)
Definition numberOf (property : option (option JS.number)) : JS.number :=
  match property with
  | Some (Some n) => n
  | _ => JS.NotANumber
  end.

(** The method that replaces the decorated one.  [service] is the injected
    [CircuitBreakerService], given by its module options; without it the
    original method runs unprotected. *)
Definition wrapped {E} (service : option CircuitBreakerModuleOptions)
  (className : string) (classConfig methodConfig : CircuitBreakerConfig)
  (originalMethod : operation E) : M E JS.value :=
  match service with
  | None => call originalMethod
  | Some options =>
      let final := finalConfig classConfig methodConfig in
      CircuitBreakerService.execute options originalMethod
        (redisKey className final)
        (numberOf (threshold final))
        (numberOf (timeout final))
        (default JS.Undefined (fallbackResult final))
  end.

End Decorator.

(* ===================================================================== *)
(** ** [CircuitBreakerModule]: the options and their validation *)
(* ===================================================================== *)

Module CircuitBreakerModule.

(** The options object a caller hands to [forRoot].  For the two strings
    [None] is a missing, [undefined] or [null] property (the code treats
    the three alike); for the port [None] is missing or [undefined],
    [Some None] is [null], which the code tells apart. *)
Record options : Type := ModuleOptions {
  optServiceName : option string;
  optRedisHost : option string;
  optRedisPort : option (option Z)
}.

(** [!s] for an optional string: missing or empty. *)
Definition missing (s : option string) : bool :=
  match s with
  | Some v => String.eqb v ""
  | None => true
  end.

(** [forRoot(options)]: throws when the service name or the host is
    missing or empty, or the port [=== undefined]; otherwise the options
    object is provided, as it is, under [CIRCUIT_BREAKER_CONFIG]. *)
Definition forRoot (o : options) : exn + options :=
  if missing (optServiceName o) || missing (optRedisHost o)
     || negb (bool_decide (is_Some (optRedisPort o)))
  then inl (Error
    "CircuitBreakerModule requires serviceName, redisHost, and redisPort to be configured")
  else inr o.

(** [forRootAsync]: what the factory returns is provided unchecked. *)
Definition forRootAsync (factoryResult : options) : options := factoryResult.

(** What [CircuitBreakerService] reads of the provided options. *)
Definition engineOptions (o : options) : CircuitBreakerModuleOptions :=
  Options (optServiceName o).

(** The connection [RedisService] opens:
    [host: redisHost ?? 'localhost', port: redisPort ?? 6379]. *)
Definition connection (o : options) : string * Z :=
  (default "localhost" (optRedisHost o),
   match optRedisPort o with
   | Some (Some port) => port
   | _ => 6379
   end).

End CircuitBreakerModule.

(* ===================================================================== *)
(** ** [CircuitBreakerInterceptor] *)
(* ===================================================================== *)

Module Interceptor.

(** [{ ...a, ...b }] where [b] may be [undefined], which spreads nothing. *)
Definition spread_metadata (a : CircuitBreakerConfig)
  (b : option CircuitBreakerConfig) : CircuitBreakerConfig :=
  match b with
  | Some c => Decorator.spread a c
  | None => a
  end.

(** [getCircuitBreakerConfig(context)]: the metadata of the class and of
    the handler are merged over the defaults, and the key is replaced by
    the full key built from the name of the class. *)
Definition getCircuitBreakerConfig (className : string)
  (classConfig methodConfig : option CircuitBreakerConfig) : CircuitBreakerConfig :=
  let merged :=
    spread_metadata (spread_metadata DEFAULT_CIRCUIT_BREAKER_CONFIG classConfig)
      methodConfig in
  Config (threshold merged) (timeout merged) (fallbackResult merged)
    (Some (Some
       match key merged with
       | Some (Some k) =>
           if String.eqb k "" then "circuit-breaker:" +:+ className
           else "circuit-breaker:" +:+ className +:+ ":" +:+ k
       | _ => "circuit-breaker:" +:+ className
       end)).

(** [circuitBreakerConfig.key!] *)
Definition keyOf (property : option (option string)) : string :=
  match property with
  | Some (Some k) => k
  | _ => ""
  end.

(** [intercept(context, next)]: the handler [next.handle()], which emits
    one value or fails, runs under [execute]. *)
Definition intercept {E} (options : CircuitBreakerModuleOptions)
  (className : string) (classConfig methodConfig : option CircuitBreakerConfig)
  (next : operation E) : M E JS.value :=
  let circuitBreakerConfig :=
    getCircuitBreakerConfig className classConfig methodConfig in
  CircuitBreakerService.execute options next
    (keyOf (key circuitBreakerConfig))
    (Decorator.numberOf (threshold circuitBreakerConfig))
    (Decorator.numberOf (timeout circuitBreakerConfig))
    (default JS.Undefined (fallbackResult circuitBreakerConfig)).

End Interceptor.

(* ===================================================================== *)
(** ** Vocabulary of the statements *)
(* ===================================================================== *)

Section Vocabulary.

Context {E : Type}.
Variable config : CircuitBreakerModuleOptions.

(** The state [execute] derives in the world [w]. *)
Definition stateIn (w : world E) (key : string) (threshold : JS.number)
  : CircuitBreakerState :=
  CircuitBreakerService.statusOf
    (Redis.val <$> db w !! CircuitBreakerService.getCircuitBreakerKey config key)
    threshold.

(** The world once the status has been read. *)
Definition afterStatus (w : world E) (key : string) : world E :=
  World (db w)
    (sent w ++
     [Single (Redis.GET (CircuitBreakerService.getCircuitBreakerKey config key))])
    (env w).

End Vocabulary.

(** What [handleCircuitBreakerError] makes of the replies to its pipeline. *)
Definition recorded (replies : list Redis.reply) : outcome unit :=
  let results := Some (map RedisService.result_of replies) in
  if CircuitBreakerService.errorAt results 0
  then Rejected (Error "Failed to increment circuit breaker error count")
  else if CircuitBreakerService.errorAt results 1
  then Rejected (Error "Failed to set circuit breaker error count expiration")
  else Resolved tt.

(** A batch is atomic towards a reader when the reader, whenever its
    command is served, finds the database either as it was before the
    batch or as the whole batch leaves it. *)
Definition AtomicBatch (batch : list Redis.command) (reader : Redis.command)
  (d : Redis.db) : Prop :=
  forall sched pre post,
    Redis.Interleave [batch; [reader]] sched ->
    sched = (pre ++ reader :: post)%list ->
    snd (Redis.run pre d) = d \/
    snd (Redis.run pre d) = snd (Redis.run batch d).

(** The commands of a request, in the order they are served. *)
Definition commands_of (r : request) : list Redis.command :=
  match r with
  | Single c => [c]
  | Pipeline cs => cs
  end.

(** What a computation hands to the server when it runs from the world
    [w]: the commands of each request it sends, request by request. *)
Definition submitted {E A} (m : M E A) (w : world E) : list (list Redis.command) :=
  map commands_of (drop (length (sent w)) (sent (snd (m w)))).

(** How many INCR of the key [k] a schedule holds. *)
Definition increments (k : string) (sched : list Redis.command) : nat :=
  length (filter (fun c => c = Redis.INCR k) sched).

(** The counter after [n] increments; an absent key stays absent when
    there is none. *)
Definition bumped (n : nat) (counter : option Z) : option Z :=
  match n with
  | O => counter
  | S _ => Some (default 0 counter + Z.of_nat n)
  end.

(** The keys a request names. *)
Definition command_key (c : Redis.command) : string :=
  match c with
  | Redis.GET k | Redis.SET k _ | Redis.DEL k | Redis.INCR k
  | Redis.EXPIRE k _ | Redis.TTL k => k
  end.

Definition request_keys (r : request) : list string :=
  match r with
  | Single c => [command_key c]
  | Pipeline cs => map command_key cs
  end.

(** The key as the specification words it:
    [prefix + ":" + scopeId + (":" + callKey if callKey else "")]. *)
Definition specKey (scopeId : string) (callKey : option string) : string :=
  match callKey with
  | Some k =>
      if String.eqb k "" then CIRCUIT_BREAKER_KEY_PREFIX +:+ ":" +:+ scopeId
      else CIRCUIT_BREAKER_KEY_PREFIX +:+ ":" +:+ scopeId +:+ ":" +:+ k
  | None => CIRCUIT_BREAKER_KEY_PREFIX +:+ ":" +:+ scopeId
  end.

(** The per-operation key of a configuration as the decorator reads it
    with [if (finalConfig.key)]: an undefined or empty key counts as none. *)
Definition callKey (c : CircuitBreakerConfig) : option string :=
  match key c with
  | Some (Some k) => if String.eqb k "" then None else Some k
  | _ => None
  end.

(** The counter under [k] is absent or holds, in decimal, an integer
    between 1 and [threshold]. *)
Definition counterWithin (d : Redis.db) (k : string) (threshold : Z) : Prop :=
  d !! k = None \/
  exists c life,
    d !! k = Some (Redis.Entry (JS.toString c) life) /\ 1 <= c <= threshold.

(** The requests that follow the GET of the status check, by the state
    read and the outcome of the wrapped operation. *)
Definition followUp (k : string) (timeout : JS.number) (state : CircuitBreakerState)
  (o : outcome JS.value) : list request :=
  match state, o with
  | OPEN, _ => []
  | CLOSED, Resolved _ => [Single (Redis.DEL k)]
  | CLOSED, Rejected error =>
      if CircuitBreakerService.countsAsFailure error
      then [Pipeline (CircuitBreakerService.failurePipeline k timeout)]
      else []
  end.

(** A value that is no thenable: what an async function returns of it is
    what its promise resolves with. *)
Definition plain (v : JS.value) : Prop :=
  match v with JS.Thenable _ => False | _ => True end.

(** Sample data for the examples below. *)
Definition payments : CircuitBreakerModuleOptions := Options (Some "payments").

Definition chargeKey : string :=
  CircuitBreakerService.getCircuitBreakerKey payments "charge".

(** A world whose counter for ["charge"] holds [stored]; the environment
    counts the calls of the wrapped operation. *)
Definition world_with (stored : string) (life : option Z) : world nat :=
  World {[ chargeKey := Redis.Entry stored life ]} [] 0%nat.

Definition fresh_world : world nat := World ∅ [] 0%nat.

(** Wrapped operations that count their calls. *)
Definition succeeds (v : JS.value) : operation nat :=
  fun calls => (Resolved v, S calls).

Definition fails (error : exn) : operation nat :=
  fun calls => (Rejected error, S calls).

(* ===================================================================== *)
(** * Properties *)
(* ===================================================================== *)

Import CircuitBreakerService.

(** ** Numbers *)

Lemma toDouble_exact (z : Z) : Z.abs z <= 2 ^ 53 -> JS.toDouble z = JS.Int z.
Proof.
  intros Hz. unfold JS.toDouble. cbv zeta.
  destruct (Z.leb_spec (Z.abs z) (2 ^ 53)); [reflexivity | lia].
Qed.

Lemma toDouble_not_nan (z : Z) : JS.toDouble z <> JS.NotANumber.
Proof.
  unfold JS.toDouble. cbv zeta.
  destruct (_ <=? _); [discriminate|].
  destruct (_ <=? _); [destruct (_ <? _)|]; discriminate.
Qed.

Lemma ge_number_refl (n : JS.number) :
  n <> JS.NotANumber -> JS.ge_number n n = true.
Proof.
  destruct n; try congruence; intros _; try reflexivity.
  cbn. apply Z.leb_refl.
Qed.

Lemma ge_number_Int (x y : Z) : JS.ge_number (JS.Int x) (JS.Int y) = (y <=? x).
Proof. reflexivity. Qed.

Lemma roundHalfEven_cases (q r den : Z) :
  (JS.roundHalfEven q r den = q /\ 2 * r <= den) \/
  (JS.roundHalfEven q r den = q + 1 /\ den <= 2 * r).
Proof.
  unfold JS.roundHalfEven.
  destruct (Z.ltb_spec (2 * r) den); [left; lia|].
  destruct (Z.ltb_spec den (2 * r)); [right; lia|].
  destruct (Z.even q); [left | right]; lia.
Qed.

(** Below 2^53 in magnitude, flooring the machine quotient by 1000 gives
    the floor of the exact quotient. *)
Lemma quotientFloor_1000 (t : Z) :
  t <> 0 -> Z.abs t <= 2 ^ 53 -> JS.quotientFloor t 1000 = t / 1000.
Proof.
  intros Hnz Hbound.
  destruct (Z.eq_dec (Z.abs t) (2 ^ 53)) as [Hedge | Hne].
  { destruct (Z.abs_eq_or_opp t) as [Ht | Ht]; rewrite Ht in Hedge.
    - subst t. vm_compute. reflexivity.
    - assert (t = - 2 ^ 53) as -> by lia. vm_compute. reflexivity. }
  assert (Hpos : 0 < Z.abs t) by lia.
  assert (HL : 0 <= Z.log2 (Z.abs t) < 53).
  { split; [apply Z.log2_nonneg|]. apply Z.log2_lt_pow2; lia. }
  unfold JS.quotientFloor. change (Z.log2 1000) with 9.
  set (a := Z.abs t) in *.
  set (k1 := 53 - (Z.log2 a - 9)).
  set (k := if _ <? _ then k1 else k1 - 1).
  assert (Hk : 9 <= k) by (subst k k1; destruct (_ <? _); lia).
  clearbody k. clear k1.
  unfold JS.scaled. destruct (Z.leb_spec 0 k); [|lia].
  assert (HP : 512 <= 2 ^ k).
  { change 512 with (2 ^ 9). apply Z.pow_le_mono_r; lia. }
  set (P := 2 ^ k) in *. clearbody P.
  pose proof (Z.div_mod t 1000 ltac:(lia)) as Ht.
  pose proof (Z.mod_pos_bound t 1000 ltac:(lia)) as Hr.
  pose proof (Z.div_mod (a * P) 1000 ltac:(lia)) as Hu.
  pose proof (Z.mod_pos_bound (a * P) 1000 ltac:(lia)) as Hrr.
  set (q := t / 1000) in *. set (r := t mod 1000) in *.
  set (u := a * P / 1000) in *. set (rr := (a * P) mod 1000) in *.
  assert (HrP : 0 <= r * P <= 999 * P) by nia.
  assert (HrP' : 1 <= r -> P <= r * P) by nia.
  assert (HtP : t * P = 1000 * (q * P) + r * P) by (rewrite Ht; ring).
  symmetry.
  destruct (Z.abs_eq_or_opp t) as [Habs | Habs]; fold a in Habs.
  - assert (Hsgn : Z.sgn t = 1) by (apply Z.sgn_pos; lia).
    rewrite Hsgn, Z.mul_1_l.
    assert (HaP : a * P = t * P) by (rewrite Habs; ring).
    destruct (roundHalfEven_cases u rr 1000) as [[-> Hround] | [-> Hround]].
    + apply (Z.div_unique_pos _ P q (u - P * q)); lia.
    + apply (Z.div_unique_pos _ P q (u + 1 - P * q)); lia.
  - assert (Hsgn : Z.sgn t = -1) by (apply Z.sgn_neg; lia).
    rewrite Hsgn.
    assert (HaP : a * P = - (t * P)) by (rewrite Habs; ring).
    destruct (roundHalfEven_cases u rr 1000) as [[-> Hround] | [-> Hround]].
    + apply (Z.div_unique_pos _ P q (- u - P * q)); lia.
    + apply (Z.div_unique_pos _ P q (- (u + 1) - P * q)); lia.
Qed.

Lemma floorDiv_exact (t : Z) :
  Z.abs t <= 2 ^ 53 -> JS.floorDiv (JS.toDouble t) 1000 = JS.Int (t / 1000).
Proof.
  intros Hbound. rewrite toDouble_exact by exact Hbound.
  destruct (Z.eq_dec t 0) as [-> | Hnz]; [reflexivity|].
  unfold JS.floorDiv. rewrite quotientFloor_1000 by assumption.
  destruct t; [congruence | reflexivity | reflexivity].
Qed.

(** Between one second and the largest safe integer of milliseconds, the
    seconds sent are the floor of the quotient, at least 1 and within what
    EXPIRE accepts. *)
Lemma seconds_in_range (timeout : Z) :
  0 <= timeout <= JS.MAX_SAFE_INTEGER ->
  0 <= timeout / 1000 /\
  (timeout / 1000 <? Redis.LLONG_MIN) || (Redis.LLONG_MAX <? timeout / 1000) = false /\
  (timeout / 1000 <? Redis.LLONG_MIN ÷ 1000) || (Redis.LLONG_MAX ÷ 1000 <? timeout / 1000)
    = false.
Proof.
  unfold JS.MAX_SAFE_INTEGER. intros [Hlo Hhi].
  assert (H0 : 0 <= timeout / 1000) by (apply Z.div_pos; lia).
  assert (H1 : timeout / 1000 <= 2 ^ 53) by (apply Z.div_le_upper_bound; lia).
  change (2 ^ 53) with 9007199254740992 in *.
  change Redis.LLONG_MIN with (-9223372036854775808).
  change Redis.LLONG_MAX with 9223372036854775807.
  change (-9223372036854775808 ÷ 1000) with (-9223372036854775).
  change (9223372036854775807 ÷ 1000) with 9223372036854775.
  split; [exact H0|]. split; apply orb_false_iff; split; apply Z.ltb_ge; lia.
Qed.

(** ** Reading back a printed integer *)

Ltac digit_value :=
  first
    [ progress change (JS.digitValue "0") with (Some 0) | progress change (JS.digitValue "1") with (Some 1)
    | progress change (JS.digitValue "2") with (Some 2) | progress change (JS.digitValue "3") with (Some 3)
    | progress change (JS.digitValue "4") with (Some 4) | progress change (JS.digitValue "5") with (Some 5)
    | progress change (JS.digitValue "6") with (Some 6) | progress change (JS.digitValue "7") with (Some 7)
    | progress change (JS.digitValue "8") with (Some 8) | progress change (JS.digitValue "9") with (Some 9) ];
  cbn [Z.ltb Z.compare Pos.compare Pos.compare_cont].

Lemma takeDigits_acc (u : Decimal.uint) (acc : positive) :
  fold_left (fun a d => a * 10 + d)
    (JS.takeDigits 10 (NilEmpty.string_of_uint u)) (Z.pos acc)
  = Z.pos (Pos.of_uint_acc u acc).
Proof.
  revert acc.
  induction u as [|u IH|u IH|u IH|u IH|u IH|u IH|u IH|u IH|u IH|u IH];
    intros acc; [reflexivity | ..];
    cbn [NilEmpty.string_of_uint JS.takeDigits Pos.of_uint_acc];
    digit_value; cbn [fold_left]; rewrite <- IH; f_equal; lia.
Qed.

Lemma mathInt_uint (u : Decimal.uint) :
  JS.mathInt 10 (JS.takeDigits 10 (NilEmpty.string_of_uint u)) = Z.of_uint u.
Proof.
  unfold JS.mathInt, Z.of_uint.
  induction u as [|u IH|u IH|u IH|u IH|u IH|u IH|u IH|u IH|u IH|u IH];
    [reflexivity | ..];
    cbn [NilEmpty.string_of_uint JS.takeDigits Pos.of_uint];
    digit_value; cbn [fold_left];
    first [ exact IH | apply (takeDigits_acc u) ].
Qed.

Lemma takeDigits_uint_nonempty (u : Decimal.uint) :
  u <> Decimal.Nil -> JS.takeDigits 10 (NilEmpty.string_of_uint u) <> [].
Proof.
  destruct u; intros H; try congruence;
    cbn [NilEmpty.string_of_uint JS.takeDigits]; digit_value; discriminate.
Qed.

(** A string of decimal digits has no white space, sign or [0x] in front. *)
Lemma readInteger_digits (u : Decimal.uint) :
  u <> Decimal.Nil ->
  JS.readInteger (NilEmpty.string_of_uint u) = Some (Z.of_uint u).
Proof.
  intros Hu. rewrite <- mathInt_uint.
  pose proof (takeDigits_uint_nonempty u Hu) as Hne.
  assert (Hshape : JS.readInteger (NilEmpty.string_of_uint u) =
    match JS.takeDigits 10 (NilEmpty.string_of_uint u) with
    | [] => None
    | ds => Some (1 * JS.mathInt 10 ds)
    end).
  { destruct u as [|u|u|u|u|u|u|u|u|u|u]; try congruence;
      try reflexivity.
    destruct u; reflexivity. }
  rewrite Hshape.
  destruct (JS.takeDigits 10 (NilEmpty.string_of_uint u)); [congruence|].
  f_equal; lia.
Qed.

Lemma readInteger_neg_digits (u : Decimal.uint) :
  u <> Decimal.Nil ->
  JS.readInteger (String "-" (NilEmpty.string_of_uint u)) = Some (- Z.of_uint u).
Proof.
  intros Hu. rewrite <- mathInt_uint.
  pose proof (takeDigits_uint_nonempty u Hu) as Hne.
  assert (Hshape : JS.readInteger (String "-" (NilEmpty.string_of_uint u)) =
    match JS.takeDigits 10 (NilEmpty.string_of_uint u) with
    | [] => None
    | ds => Some (-1 * JS.mathInt 10 ds)
    end).
  { destruct u as [|u|u|u|u|u|u|u|u|u|u]; try congruence;
      try reflexivity.
    destruct u; reflexivity. }
  rewrite Hshape.
  destruct (JS.takeDigits 10 (NilEmpty.string_of_uint u)); [congruence|].
  f_equal; lia.
Qed.

Lemma to_uint_nonnil (p : positive) : Pos.to_uint p <> Decimal.Nil.
Proof.
  intros H. pose proof (DecimalPos.Unsigned.of_to p) as Hp.
  rewrite H in Hp. discriminate.
Qed.

(** The integer that [toString] printed is read back. *)
Lemma readInteger_toString (z : Z) : JS.readInteger (JS.toString z) = Some z.
Proof.
  unfold JS.toString.
  rewrite <- (DecimalZ.of_to z) at 2.
  destruct z as [|p|p]; [reflexivity | |];
    cbn [Z.to_int NilZero.string_of_int Z.of_int];
    pose proof (to_uint_nonnil p) as Hp;
    unfold NilZero.string_of_uint;
    destruct (Pos.to_uint p) eqn:Hu; try congruence;
    rewrite <- Hu; rewrite <- Hu in Hp;
    first [ now apply readInteger_digits | now apply readInteger_neg_digits ].
Qed.


(** [parseInt] reads a printed integer back as the nearest double. *)
Lemma parseInt_toString (z : Z) : JS.parseInt (JS.toString z) = JS.toDouble z.
Proof. unfold JS.parseInt. now rewrite readInteger_toString. Qed.

Lemma toString_nonempty (z : Z) : JS.toString z <> "".
Proof.
  intros H. pose proof (readInteger_toString z) as Hp. rewrite H in Hp. discriminate.
Qed.

Section Status.

Context {E : Type}.
Variable config : CircuitBreakerModuleOptions.

(** What the status check does to the world: one GET, nothing else. *)
Lemma getCircuitBreakerStatus_run (key : string) (threshold : JS.number) (w : world E) :
  getCircuitBreakerStatus config key threshold w =
  (Resolved (statusOf (Redis.val <$> db w !! getCircuitBreakerKey config key) threshold),
   World (db w)
     (sent w ++ [Single (Redis.GET (getCircuitBreakerKey config key))]) (env w)).
Proof.
  unfold getCircuitBreakerStatus, RedisService.get, RedisService.send, bind, ret.
  cbn [Redis.exec_command]. unfold Redis.get.
  destruct (db w !! getCircuitBreakerKey config key) as [e|]; reflexivity.
Qed.

Lemma statusOf_counter (c : Z) (threshold : JS.number) :
  statusOf (Some (JS.toString c)) threshold =
  if JS.ge_number (JS.toDouble c) threshold then OPEN else CLOSED.
Proof.
  unfold statusOf. pose proof (toString_nonempty c) as Hne.
  destruct (JS.toString c) eqn:Hs; [congruence|].
  rewrite <- Hs, parseInt_toString. reflexivity.
Qed.

(** C1, as the code has it.  For a counter that is absent or holds (in
    decimal, as INCR leaves it) an integer [c] of magnitude at most 2^53,
    and a threshold that is an integer number, the derived state is OPEN
    exactly when the counter is present with [c >= threshold], and CLOSED
    exactly when it is absent or [c < threshold]. *)
Theorem C1_state_iff_counter (key : string) (threshold : Z)
    (counter : option Z) (w : world E) :
  Redis.val <$> db w !! getCircuitBreakerKey config key = JS.toString <$> counter ->
  (forall c, counter = Some c -> Z.abs c <= 2 ^ 53) ->
  JS.toDouble threshold = JS.Int threshold ->
  exists state,
    fst (getCircuitBreakerStatus config key threshold w) = Resolved state /\
    (state = OPEN <-> exists c, counter = Some c /\ threshold <= c) /\
    (state = CLOSED <-> counter = None \/ exists c, counter = Some c /\ c < threshold).
Proof.
  intros Hstored Hsafe Hthreshold.
  rewrite getCircuitBreakerStatus_run, Hstored, Hthreshold. cbn [fst].
  eexists; split; [reflexivity|].
  destruct counter as [c|]; cbn [fmap option_fmap option_map].
  - rewrite statusOf_counter, (toDouble_exact c (Hsafe c eq_refl)), ge_number_Int.
    destruct (Z.leb_spec threshold c) as [Hle|Hlt].
    + split; split.
      * intros _. exists c. split; [reflexivity | exact Hle].
      * reflexivity.
      * discriminate.
      * intros [[=] | (c' & [= <-] & Hc)]. lia.
    + split; split.
      * discriminate.
      * intros (c' & [= <-] & Hc). lia.
      * intros _. right. exists c. split; [reflexivity | exact Hlt].
      * reflexivity.
  - split; split; try discriminate; try reflexivity.
    + intros (c & [=] & _).
    + intros _. now left.
Qed.

(** C10.  Whatever string is stored under the key, the status check
    resolves (it never rejects); the empty string, the string 0 and a
    string [parseInt] cannot read give CLOSED, and OPEN is derived exactly
    for a string that [parseInt] reads as a number at or above the
    threshold (a positive integer number): as infinity, or as an integer
    number [n] with [threshold <= n]. *)
Theorem C10_status_total (key stored : string) (life : option Z)
    (threshold : Z) (w : world E) :
  0 < threshold ->
  JS.toDouble threshold = JS.Int threshold ->
  db w !! getCircuitBreakerKey config key = Some (Redis.Entry stored life) ->
  exists state,
    fst (getCircuitBreakerStatus config key threshold w) = Resolved state /\
    (stored = "" \/ stored = "0" \/ JS.parseInt stored = JS.NotANumber ->
     state = CLOSED) /\
    (state = OPEN <->
     JS.parseInt stored = JS.Infinity \/
     exists n, JS.parseInt stored = JS.Int n /\ threshold <= n).
Proof.
  intros Hpos Hthreshold Hstored.
  rewrite getCircuitBreakerStatus_run, Hstored, Hthreshold. cbn [fst].
  eexists; split; [reflexivity|].
  cbn [fmap option_fmap option_map Redis.val]. unfold statusOf.
  destruct stored as [|a s] eqn:Hs.
  - split; [reflexivity|]. split; [discriminate|].
    intros [Hinf | (n & Hn & _)]; discriminate.
  - rewrite <- Hs. split.
    + intros [H | [H | H]]; [congruence | | ].
      * rewrite H. change (JS.parseInt "0") with (JS.Int 0). rewrite ge_number_Int.
        destruct (Z.leb_spec threshold 0); [lia | reflexivity].
      * rewrite H. reflexivity.
    + destruct (JS.parseInt stored) as [| |n|]; cbn [JS.ge_number].
      * split; [discriminate|]. intros [? | (n & ? & _)]; discriminate.
      * split; [discriminate|]. intros [? | (n & ? & _)]; discriminate.
      * destruct (Z.leb_spec threshold n); split; try discriminate; eauto.
        intros [? | (n' & [= <-] & ?)]; [discriminate | lia].
      * split; [now left | reflexivity].
Qed.

End Status.
(** ** The paths of [execute] *)

Section Execute.

Context {E : Type}.
Variable config : CircuitBreakerModuleOptions.

Implicit Types (fn : operation E) (w : world E) (key : string).
Implicit Types (threshold timeout : JS.number) (fallbackResult : JS.value).

Lemma execute_open fn key threshold timeout fallbackResult w :
  stateIn config w key threshold = OPEN ->
  execute config fn key threshold timeout fallbackResult w =
  (if JS.truthy (JS.default_param JS.Null fallbackResult)
   then JS.settle (JS.default_param JS.Null fallbackResult)
   else Rejected (HttpException "Service is unavailable - Circuit Breaker is open" 503),
   afterStatus config w key).
Proof.
  unfold stateIn. intros Hopen. unfold execute, bind at 1.
  rewrite getCircuitBreakerStatus_run, Hopen.
  destruct (JS.truthy _); reflexivity.
Qed.

Lemma del_run key w :
  RedisService.del (getCircuitBreakerKey config key) w =
  (Resolved tt,
   World (delete (getCircuitBreakerKey config key) (db w))
     (sent w ++ [Single (Redis.DEL (getCircuitBreakerKey config key))]) (env w)).
Proof.
  unfold RedisService.del, RedisService.send, bind, ret.
  cbn [Redis.exec_command]. unfold Redis.del.
  destruct (db w !! getCircuitBreakerKey config key) as [e|] eqn:Hk;
    [reflexivity|].
  now rewrite delete_id.
Qed.

Lemma execute_closed_resolved fn key threshold timeout fallbackResult w v e1 :
  stateIn config w key threshold = CLOSED ->
  fn (env w) = (Resolved v, e1) ->
  execute config fn key threshold timeout fallbackResult w =
  (Resolved v,
   World (delete (getCircuitBreakerKey config key) (db w))
     (sent w ++ [Single (Redis.GET (getCircuitBreakerKey config key));
                 Single (Redis.DEL (getCircuitBreakerKey config key))]) e1).
Proof.
  unfold stateIn. intros Hclosed Hfn. unfold execute, bind at 1.
  rewrite getCircuitBreakerStatus_run, Hclosed.
  unfold try_catch, bind at 1, call. cbn [env db sent]. rewrite Hfn.
  unfold bind. rewrite del_run. cbn [db sent env ret].
  now rewrite <- app_assoc.
Qed.

Lemma execute_closed_rejected_uncounted
    fn key threshold timeout fallbackResult w error e1 :
  stateIn config w key threshold = CLOSED ->
  fn (env w) = (Rejected error, e1) ->
  countsAsFailure error = false ->
  execute config fn key threshold timeout fallbackResult w =
  (Rejected error,
   World (db w)
     (sent w ++ [Single (Redis.GET (getCircuitBreakerKey config key))]) e1).
Proof.
  unfold stateIn. intros Hclosed Hfn Hcount. unfold execute, bind at 1.
  rewrite getCircuitBreakerStatus_run, Hclosed.
  unfold try_catch, bind at 1, call. cbn [env db sent]. rewrite Hfn, Hcount.
  reflexivity.
Qed.

Lemma handleCircuitBreakerError_run key timeout w :
  handleCircuitBreakerError config key timeout w =
  (recorded (fst (Redis.run (failurePipeline (getCircuitBreakerKey config key) timeout) (db w))),
   World
     (snd (Redis.run (failurePipeline (getCircuitBreakerKey config key) timeout) (db w)))
     (sent w ++ [Pipeline (failurePipeline (getCircuitBreakerKey config key) timeout)])
     (env w)).
Proof.
  unfold handleCircuitBreakerError, RedisService.executePipeline, bind, recorded.
  destruct (Redis.run _ _) as [rs d1]. cbn [fst snd].
  destruct (errorAt _ 0); [reflexivity|].
  destruct (errorAt _ 1); reflexivity.
Qed.

Lemma execute_closed_rejected_counted
    fn key threshold timeout fallbackResult w error e1 :
  stateIn config w key threshold = CLOSED ->
  fn (env w) = (Rejected error, e1) ->
  countsAsFailure error = true ->
  execute config fn key threshold timeout fallbackResult w =
  (match recorded (fst (Redis.run (failurePipeline (getCircuitBreakerKey config key) timeout) (db w))) with
   | Resolved _ => Rejected error
   | Rejected storeError => Rejected storeError
   end,
   World
     (snd (Redis.run (failurePipeline (getCircuitBreakerKey config key) timeout) (db w)))
     (sent w ++ [Single (Redis.GET (getCircuitBreakerKey config key));
                 Pipeline (failurePipeline (getCircuitBreakerKey config key) timeout)])
     e1).
Proof.
  unfold stateIn. intros Hclosed Hfn Hcount. unfold execute, bind at 1.
  rewrite getCircuitBreakerStatus_run, Hclosed.
  unfold try_catch, bind at 1, call. cbn [env db sent]. rewrite Hfn, Hcount.
  unfold bind. rewrite handleCircuitBreakerError_run. cbn [db sent env].
  rewrite <- app_assoc.
  destruct (recorded _); reflexivity.
Qed.

End Execute.

(** ** What the failure pipeline does to the counter *)

Lemma string2ll_toString (c : Z) :
  Redis.LLONG_MIN <= c <= Redis.LLONG_MAX ->
  Redis.string2ll (JS.toString c) = Some c.
Proof.
  intros [Hlo Hhi]. unfold Redis.string2ll.
  rewrite readInteger_toString, String.eqb_refl.
  destruct (Z.leb_spec Redis.LLONG_MIN c); [|lia].
  destruct (Z.leb_spec c Redis.LLONG_MAX); [|lia].
  reflexivity.
Qed.

Lemma string2ll_canonical (s : string) (z : Z) :
  Redis.string2ll s = Some z -> s = JS.toString z.
Proof.
  unfold Redis.string2ll.
  destruct (JS.readInteger s) as [n|]; [|discriminate].
  destruct (String.eqb_spec (JS.toString n) s) as [Heq|]; [|discriminate].
  cbn [andb]. destruct (_ && _); [|discriminate].
  intros [= <-]. now symmetry.
Qed.

(** For a timeout of at most 2^53 in magnitude the seconds sent are the
    floor of the exact quotient. *)
Lemma failurePipeline_seconds (k : string) (timeout : Z) :
  Z.abs timeout <= 2 ^ 53 ->
  failurePipeline k timeout =
  [Redis.INCR k; Redis.EXPIRE k (JS.Int (timeout / 1000))].
Proof.
  intros Hbound. unfold failurePipeline. now rewrite floorDiv_exact.
Qed.

(** EXPIRE with accepted, positive seconds on an existing key. *)
Lemma expire_sets (k : string) (s : Z) (d : Redis.db) (e : Redis.entry) :
  0 < s <= Redis.LLONG_MAX ÷ 1000 ->
  d !! k = Some e ->
  Redis.expire k (JS.Int s) d =
  (Redis.Integer 1, <[k := Redis.Entry (Redis.val e) (Some s)]> d).
Proof.
  intros [Hpos Hmax] Hk. unfold Redis.expire. rewrite Hk.
  change (Redis.LLONG_MAX ÷ 1000) with 9223372036854775 in *.
  change (Redis.LLONG_MIN ÷ 1000) with (-9223372036854775).
  change Redis.LLONG_MIN with (-9223372036854775808).
  change Redis.LLONG_MAX with 9223372036854775807.
  destruct (Z.ltb_spec s (-9223372036854775808)); [lia|].
  destruct (Z.ltb_spec 9223372036854775807 s); [lia|].
  destruct (Z.ltb_spec s (-9223372036854775)); [lia|].
  destruct (Z.ltb_spec 9223372036854775 s); [lia|].
  destruct (Z.leb_spec s 0); [lia|]. reflexivity.
Qed.

Lemma seconds_accepted (timeout : Z) :
  1000 <= timeout <= JS.MAX_SAFE_INTEGER ->
  0 < timeout / 1000 <= Redis.LLONG_MAX ÷ 1000.
Proof.
  unfold JS.MAX_SAFE_INTEGER. intros [Hlo Hhi].
  change (Redis.LLONG_MAX ÷ 1000) with 9223372036854775.
  change (2 ^ 53) with 9007199254740992 in *.
  split; [apply Z.div_str_pos; lia|].
  apply Z.div_le_upper_bound; lia.
Qed.

(** The counter as a number: an absent key counts as zero. *)
Lemma run_failurePipeline (k : string) (timeout : Z) (d : Redis.db)
    (counter : option Z) :
  Redis.val <$> d !! k = JS.toString <$> counter ->
  (forall c, counter = Some c -> Redis.LLONG_MIN <= c < Redis.LLONG_MAX) ->
  1000 <= timeout <= JS.MAX_SAFE_INTEGER ->
  Redis.run (failurePipeline k timeout) d =
  ([Redis.Integer (default 0 counter + 1); Redis.Integer 1],
   <[k := Redis.Entry (JS.toString (default 0 counter + 1)) (Some (timeout / 1000))]> d).
Proof.
  intros Hstored Hrange Htimeout.
  pose proof (seconds_accepted timeout Htimeout) as Hsec.
  rewrite failurePipeline_seconds by (unfold JS.MAX_SAFE_INTEGER in *; lia).
  cbn [Redis.run Redis.exec_command].
  unfold Redis.incr.
  destruct (d !! k) as [[s life]|] eqn:Hk; destruct counter as [c|];
    cbn in Hstored; try discriminate.
  - injection Hstored as ->. specialize (Hrange c eq_refl). cbn [Redis.val Redis.ttl].
    rewrite string2ll_toString by lia.
    destruct (Z.ltb_spec c Redis.LLONG_MAX); [|lia].
    erewrite expire_sets; [|exact Hsec | apply lookup_insert_eq].
    cbn [Redis.val from_option id]. now rewrite insert_insert_eq.
  - erewrite expire_sets; [|exact Hsec | apply lookup_insert_eq].
    cbn [Redis.val from_option id]. now rewrite insert_insert_eq.
Qed.

Lemma recorded_ok (a b : Z) : recorded [Redis.Integer a; Redis.Integer b] = Resolved tt.
Proof. reflexivity. Qed.

(** What INCR leaves under its key. *)
Lemma incr_lookup (k : string) (d : Redis.db) :
  exists e, snd (Redis.incr k d) !! k = Some e /\
    (d !! k = None -> e = Redis.Entry "1" None) /\
    (forall c life,
       d !! k = Some (Redis.Entry (JS.toString c) life) ->
       Redis.LLONG_MIN <= c < Redis.LLONG_MAX ->
       e = Redis.Entry (JS.toString (c + 1)) life) /\
    (forall e0, d !! k = Some e0 -> Redis.string2ll (Redis.val e0) = None -> e = e0).
Proof.
  unfold Redis.incr. destruct (d !! k) as [e0|] eqn:Hk.
  - destruct (Redis.string2ll (Redis.val e0)) as [v|] eqn:Hv.
    + destruct (Z.ltb_spec v Redis.LLONG_MAX).
      * cbn [snd]. rewrite lookup_insert_eq. eexists. split; [reflexivity|].
        split; [discriminate|]. split.
        -- intros c life [= ->] Hc. cbn [Redis.val Redis.ttl] in *.
           rewrite string2ll_toString in Hv by lia. now injection Hv as <-.
        -- intros e1 [= <-] Hnone. congruence.
      * cbn [snd]. exists e0. split; [exact Hk|]. split; [discriminate|]. split.
        -- intros c life [= ->] Hc. cbn [Redis.val] in Hv.
           rewrite string2ll_toString in Hv by lia. injection Hv as <-. lia.
        -- now intros e1 [= <-] _.
    + cbn [snd]. exists e0. split; [exact Hk|]. split; [discriminate|]. split.
      * intros c life [= ->] Hc. cbn [Redis.val] in Hv.
        rewrite string2ll_toString in Hv by lia. discriminate.
      * now intros e1 [= <-] _.
  - cbn [snd]. rewrite lookup_insert_eq. eexists. split; [reflexivity|].
    split; [reflexivity|]. split; [discriminate | discriminate].
Qed.

Lemma incr_frame (k other : string) (d : Redis.db) :
  other <> k -> snd (Redis.incr k d) !! other = d !! other.
Proof.
  intros Hother. unfold Redis.incr.
  destruct (d !! k) as [e|];
    [destruct (Redis.string2ll (Redis.val e)) as [v|];
       [destruct (v <? Redis.LLONG_MAX)|]|];
    cbn [snd]; rewrite ?lookup_insert_ne by congruence; reflexivity.
Qed.

(** What EXPIRE leaves under its key: nothing, the entry as it was, or the
    entry with a new time to live. *)
Lemma expire_lookup (k : string) (seconds : JS.number) (d : Redis.db) :
  snd (Redis.expire k seconds d) !! k = None \/
  snd (Redis.expire k seconds d) !! k = d !! k \/
  exists e s, d !! k = Some e /\
    snd (Redis.expire k seconds d) !! k = Some (Redis.Entry (Redis.val e) (Some s)).
Proof.
  unfold Redis.expire.
  destruct seconds as [| |s|]; try (right; left; reflexivity).
  destruct (_ || _); [right; left; reflexivity|].
  destruct (_ || _); [right; left; reflexivity|].
  destruct (d !! k) as [e|] eqn:Hk; [|left; exact Hk].
  destruct (s <=? 0); cbn [snd].
  - left. apply lookup_delete_eq.
  - right; right. exists e, s. split; [reflexivity|]. apply lookup_insert_eq.
Qed.

Lemma expire_frame (k other : string) (seconds : JS.number) (d : Redis.db) :
  other <> k -> snd (Redis.expire k seconds d) !! other = d !! other.
Proof.
  intros Hother. unfold Redis.expire.
  destruct seconds as [| |s|]; try reflexivity.
  destruct (_ || _); [reflexivity|]. destruct (_ || _); [reflexivity|].
  destruct (d !! k) as [e|]; [destruct (s <=? 0)|]; cbn [snd];
    rewrite ?lookup_insert_ne, ?lookup_delete_ne by congruence; reflexivity.
Qed.

Lemma run_failurePipeline_snd (k : string) (timeout : JS.number) (d : Redis.db) :
  snd (Redis.run (failurePipeline k timeout) d) =
  snd (Redis.expire k (JS.floorDiv timeout 1000) (snd (Redis.incr k d))).
Proof.
  unfold failurePipeline. cbn [Redis.run Redis.exec_command].
  destruct (Redis.incr k d) as [r1 d1]. cbn [snd].
  destruct (Redis.expire k _ d1) as [r2 d2]. reflexivity.
Qed.

Lemma run_failurePipeline_frame (k other : string) (timeout : JS.number)
    (d : Redis.db) :
  other <> k ->
  snd (Redis.run (failurePipeline k timeout) d) !! other = d !! other.
Proof.
  intros Hother. rewrite run_failurePipeline_snd.
  rewrite expire_frame by exact Hother. now apply incr_frame.
Qed.

(** With seconds that are zero the EXPIRE deletes the key the INCR has
    just touched, whatever it held. *)
Lemma run_failurePipeline_subsecond (k : string) (timeout : Z) (d : Redis.db) :
  0 <= timeout < 1000 ->
  snd (Redis.run (failurePipeline k timeout) d) !! k = None.
Proof.
  intros Htimeout. rewrite run_failurePipeline_snd.
  rewrite floorDiv_exact by (change (2 ^ 53) with 9007199254740992; lia).
  rewrite (Z.div_small timeout 1000) by lia.
  destruct (incr_lookup k d) as (e & He & _).
  unfold Redis.expire. cbn [orb Z.ltb Z.compare]. rewrite He.
  cbn. apply lookup_delete_eq.
Qed.
(** ** The open circuit *)

Section Claims.

Context {E : Type}.
Variable config : CircuitBreakerModuleOptions.

Implicit Types (fn : operation E) (w : world E) (key : string).
Implicit Types (threshold timeout : Z) (fallbackResult : JS.value).

(** While OPEN the wrapped operation is not called: its environment is
    left as it was and the outcome is the same whatever the operation. *)
Lemma open_skips_operation fn fn' key threshold timeout fallbackResult w :
  stateIn config w key threshold = OPEN ->
  env (snd (execute config fn key threshold timeout fallbackResult w)) = env w /\
  execute config fn key threshold timeout fallbackResult w =
  execute config fn' key threshold timeout fallbackResult w.
Proof.
  intros Hopen. rewrite !execute_open by assumption. split; reflexivity.
Qed.

Lemma truthy_default_param fallbackResult :
  JS.truthy (JS.default_param JS.Null fallbackResult) = JS.truthy fallbackResult.
Proof. destruct fallbackResult; reflexivity. Qed.

Lemma default_param_truthy fallbackResult :
  JS.truthy fallbackResult = true ->
  JS.default_param JS.Null fallbackResult = fallbackResult.
Proof. destruct fallbackResult; try discriminate; reflexivity. Qed.

Lemma settle_plain (v : JS.value) : plain v -> JS.settle v = Resolved v.
Proof. destruct v; cbn; intros H; try reflexivity. destruct H. Qed.

Lemma open_returns_truthy_fallback fn key threshold timeout fallbackResult w :
  stateIn config w key threshold = OPEN ->
  JS.truthy fallbackResult = true ->
  execute config fn key threshold timeout fallbackResult w =
  (JS.settle fallbackResult, afterStatus config w key).
Proof.
  intros Hopen Htruthy. rewrite execute_open by assumption.
  rewrite truthy_default_param, Htruthy. now rewrite default_param_truthy.
Qed.

Lemma open_rejects_falsy_fallback fn key threshold timeout fallbackResult w :
  stateIn config w key threshold = OPEN ->
  JS.truthy fallbackResult = false ->
  execute config fn key threshold timeout fallbackResult w =
  (Rejected (HttpException "Service is unavailable - Circuit Breaker is open"
               SERVICE_UNAVAILABLE),
   afterStatus config w key).
Proof.
  intros Hopen Hfalsy. rewrite execute_open by assumption.
  destruct fallbackResult; cbn [JS.default_param]; try now rewrite Hfalsy.
  reflexivity.
Qed.

(** ** Which errors count *)

Lemma countsAsFailure_iff (error : exn) :
  countsAsFailure error = true <->
  exists response status,
    error = HttpException response status /\ (500 <= status \/ status = 429).
Proof.
  destruct error as [response status | message]; cbn [countsAsFailure].
  - rewrite orb_true_iff, Z.leb_le, Z.eqb_eq. split.
    + intros H. exists response, status. now split.
    + intros (r & s & [= <- <-] & H). exact H.
  - split; [discriminate|]. intros (r & s & [=] & _).
Qed.

(** X17.  For a status that is a valid HTTP status code, counting coincides
    with being a 5xx status or 429. *)
Lemma countsAsFailure_valid_status (response : string) (status : Z) :
  100 <= status <= 599 ->
  (countsAsFailure (HttpException response status) = true <->
   500 <= status <= 599 \/ status = 429).
Proof.
  intros Hvalid. rewrite countsAsFailure_iff. split.
  - intros (r & s & [= <- <-] & H). lia.
  - intros H. exists response, status. split; [reflexivity | lia].
Qed.

(** ** The closed circuit *)

(** C5.  When the state is CLOSED and the wrapped operation resolves,
    [execute] resolves with the operation's result, having deleted the
    counter: the key is absent afterwards, so a status check that follows
    at once reads no count and reports CLOSED for any threshold. *)
Theorem C5_success_clears_counter
    fn key threshold timeout fallbackResult w v e1 :
  stateIn config w key threshold = CLOSED ->
  fn (env w) = (Resolved v, e1) ->
  let w' := snd (execute config fn key threshold timeout fallbackResult w) in
  fst (execute config fn key threshold timeout fallbackResult w) = Resolved v /\
  db w' = delete (getCircuitBreakerKey config key) (db w) /\
  db w' !! getCircuitBreakerKey config key = None /\
  fst (RedisService.get (getCircuitBreakerKey config key) w') = Resolved None /\
  forall threshold',
    fst (getCircuitBreakerStatus config key threshold' w') = Resolved CLOSED.
Proof.
  intros Hclosed Hfn w'. subst w'.
  rewrite (execute_closed_resolved config fn key threshold timeout fallbackResult
             w v e1 Hclosed Hfn).
  cbn [fst snd db]. repeat split.
  - apply lookup_delete_eq.
  - unfold RedisService.get, RedisService.send, bind, ret.
    cbn [Redis.exec_command db]. unfold Redis.get.
    now rewrite lookup_delete_eq.
  - intros threshold'. rewrite getCircuitBreakerStatus_run. cbn [db fst].
    now rewrite lookup_delete_eq.
Qed.


(** C6, as the code has it.  When the state is CLOSED and the wrapped
    operation fails, [execute] rejects: the failure is never swallowed.
    It rejects with the original error itself whenever the error does not
    count or the store accepted the increment-and-expire pipeline; when the
    pipeline reported an error, it is the store failure that is raised. *)
Theorem C6_failure_rethrown
    fn key threshold timeout fallbackResult w error e1 :
  stateIn config w key threshold = CLOSED ->
  fn (env w) = (Rejected error, e1) ->
  let replies :=
    fst (Redis.run (failurePipeline (getCircuitBreakerKey config key) timeout) (db w)) in
  (exists raised,
     fst (execute config fn key threshold timeout fallbackResult w) = Rejected raised) /\
  (countsAsFailure error = false \/ recorded replies = Resolved tt ->
   fst (execute config fn key threshold timeout fallbackResult w) = Rejected error) /\
  (forall storeError,
     countsAsFailure error = true -> recorded replies = Rejected storeError ->
     fst (execute config fn key threshold timeout fallbackResult w) = Rejected storeError).
Proof.
  intros Hclosed Hfn replies. subst replies.
  destruct (countsAsFailure error) eqn:Hcount.
  - rewrite (execute_closed_rejected_counted config fn key threshold timeout
               fallbackResult w error e1 Hclosed Hfn Hcount).
    cbn [fst]. destruct (recorded _) as [[]|storeError].
    + split; [eauto|]. split; [reflexivity|]. intros storeError _ [=].
    + split; [eauto|]. split.
      * intros [? | ?]; discriminate.
      * intros storeError' _ [= <-]. reflexivity.
  - rewrite (execute_closed_rejected_uncounted config fn key threshold timeout
               fallbackResult w error e1 Hclosed Hfn Hcount).
    cbn [fst]. split; [eauto|]. split; [reflexivity|]. discriminate.
Qed.

(** C4, as the code has it.  When the state is CLOSED and the wrapped
    operation fails with an error that counts, [execute] sends, after the
    GET of the status check, one pipeline holding INCR and then EXPIRE with
    [floor(timeout / 1000)] seconds.  Run with no other client in between,
    on a counter that is absent or an integer below the 64-bit maximum and
    with a timeout between one second and the largest safe integer, it
    leaves the counter one higher with that time to live, touches no other
    key, and the original error is raised. *)
Theorem C4_failure_recorded
    fn key threshold timeout fallbackResult w error e1 (counter : option Z) :
  stateIn config w key threshold = CLOSED ->
  fn (env w) = (Rejected error, e1) ->
  countsAsFailure error = true ->
  Redis.val <$> db w !! getCircuitBreakerKey config key = JS.toString <$> counter ->
  (forall c, counter = Some c -> Redis.LLONG_MIN <= c < Redis.LLONG_MAX) ->
  1000 <= timeout <= JS.MAX_SAFE_INTEGER ->
  let k := getCircuitBreakerKey config key in
  let w' := snd (execute config fn key threshold timeout fallbackResult w) in
  sent w' = (sent w ++
    [Single (Redis.GET k);
     Pipeline [Redis.INCR k; Redis.EXPIRE k (JS.Int (timeout / 1000))]])%list /\
  db w' !! k =
    Some (Redis.Entry (JS.toString (default 0 counter + 1)) (Some (timeout / 1000))) /\
  (forall other, other <> k -> db w' !! other = db w !! other) /\
  fst (execute config fn key threshold timeout fallbackResult w) = Rejected error.
Proof.
  intros Hclosed Hfn Hcount Hstored Hrange Htimeout k w'. subst k w'.
  rewrite (execute_closed_rejected_counted config fn key threshold timeout
             fallbackResult w error e1 Hclosed Hfn Hcount).
  rewrite (run_failurePipeline _ timeout (db w) counter Hstored Hrange Htimeout).
  rewrite failurePipeline_seconds by (unfold JS.MAX_SAFE_INTEGER in *; lia).
  cbn [fst snd db sent]. rewrite recorded_ok. repeat split.
  - apply lookup_insert_eq.
  - intros other Hother. now apply lookup_insert_ne.
Qed.

End Claims.

(** ** Concurrent recordings *)

(** A merge of command sequences holds the commands of all of them. *)
Lemma Interleave_Permutation (ps : list (list Redis.command)) (sched : list Redis.command) :
  Redis.Interleave ps sched -> sched ≡ₚ concat ps.
Proof.
  induction 1 as [ps Hdone | ps i c rest sched Hi _ IH].
  - induction Hdone as [|p ps -> _ IHps]; [reflexivity | exact IHps].
  - rewrite IH. clear IH.
    assert (Hlt : (i < length ps)%nat) by (eapply lookup_lt_Some; eassumption).
    rewrite insert_take_drop by exact Hlt.
    rewrite <- (take_drop_middle ps i (c :: rest) Hi) at 3.
    rewrite !concat_app, !concat_cons. cbn [app].
    apply Permutation_middle.
Qed.

Section Counting.

Variables (k : string) (seconds : Z).
Hypothesis seconds_accepted : 0 < seconds <= Redis.LLONG_MAX ÷ 1000.

Lemma run_counts (sched : list Redis.command) :
  Forall (fun c => c = Redis.INCR k \/ c = Redis.EXPIRE k (JS.Int seconds)) sched ->
  forall (d : Redis.db) (counter : option Z),
    Redis.val <$> d !! k = JS.toString <$> counter ->
    Redis.LLONG_MIN <= default 0 counter ->
    default 0 counter + Z.of_nat (increments k sched) <= Redis.LLONG_MAX ->
    Redis.val <$> snd (Redis.run sched d) !! k
      = JS.toString <$> bumped (increments k sched) counter /\
    Forall (fun r => Redis.is_error r = false) (fst (Redis.run sched d)).
Proof.
  induction 1 as [|c sched Hc _ IH]; intros d counter Hstored Hlo Hhi.
  - cbn. split; [exact Hstored | constructor].
  - cbn [Redis.run]. destruct Hc as [-> | ->].
    + (* INCR *)
      unfold increments in *. rewrite filter_cons_True in * by reflexivity.
      cbn [length] in *. cbn [Redis.exec_command]. unfold Redis.incr.
      destruct (d !! k) as [[s life]|] eqn:Hk; destruct counter as [c|];
        cbn in Hstored; try discriminate.
      * injection Hstored as ->. cbn [from_option id Redis.val Redis.ttl] in *.
        rewrite string2ll_toString by (unfold Redis.LLONG_MAX in *; lia).
        destruct (Z.ltb_spec c Redis.LLONG_MAX); [|lia].
        destruct (Redis.run sched _) as [rs d2] eqn:Hrun.
        specialize (IH (<[k := Redis.Entry (JS.toString (c + 1)) life]> d) (Some (c + 1))).
        rewrite Hrun in IH. cbn [fst snd from_option id] in *.
        destruct IH as [IHv IHr]; [now rewrite lookup_insert_eq | lia | lia |].
        split; [|constructor; [reflexivity | exact IHr]].
        rewrite IHv. destruct (length _); cbn [bumped from_option id fmap option_fmap option_map];
          do 2 f_equal; lia.
      * destruct (Redis.run sched _) as [rs d2] eqn:Hrun.
        specialize (IH (<[k := Redis.Entry "1" None]> d) (Some 1)).
        rewrite Hrun in IH. cbn [fst snd from_option id] in *.
        destruct IH as [IHv IHr]; [now rewrite lookup_insert_eq | unfold Redis.LLONG_MIN; lia | lia |].
        split; [|constructor; [reflexivity | exact IHr]].
        rewrite IHv. destruct (length _); cbn [bumped from_option id fmap option_fmap option_map];
          do 2 f_equal; lia.
    + (* EXPIRE *)
      unfold increments in *. rewrite filter_cons_False in * by discriminate.
      cbn [Redis.exec_command].
      destruct (d !! k) as [[s life]|] eqn:Hk.
      * rewrite (expire_sets k seconds d _ seconds_accepted Hk). cbn [Redis.val].
        destruct (Redis.run sched _) as [rs d2] eqn:Hrun.
        specialize (IH (<[k := Redis.Entry s (Some seconds)]> d) counter).
        rewrite Hrun in IH. cbn [fst snd Redis.val] in *.
        destruct IH as [IHv IHr].
        { rewrite lookup_insert_eq. exact Hstored. }
        { lia. } { lia. }
        split; [exact IHv | constructor; [reflexivity | exact IHr]].
      * assert (Hexp : Redis.expire k (JS.Int seconds) d = (Redis.Integer 0, d)).
        { unfold Redis.expire. rewrite Hk.
          change (Redis.LLONG_MAX ÷ 1000) with 9223372036854775 in *.
          change (Redis.LLONG_MIN ÷ 1000) with (-9223372036854775).
          change Redis.LLONG_MIN with (-9223372036854775808).
          change Redis.LLONG_MAX with 9223372036854775807.
          destruct (Z.ltb_spec seconds (-9223372036854775808)); [lia|].
          destruct (Z.ltb_spec 9223372036854775807 seconds); [lia|].
          destruct (Z.ltb_spec seconds (-9223372036854775)); [lia|].
          destruct (Z.ltb_spec 9223372036854775 seconds); [lia|]. reflexivity. }
        rewrite Hexp.
        destruct (Redis.run sched d) as [rs d2] eqn:Hrun.
        specialize (IH d counter). rewrite Hrun in IH. cbn [fst snd] in *.
        destruct IH as [IHv IHr]; [rewrite Hk; exact Hstored | lia | lia |].
        split; [exact IHv | constructor; [reflexivity | exact IHr]].
Qed.

End Counting.

Lemma increments_replicate (k : string) (timeout : JS.number) (N : nat) :
  increments k (concat (replicate N (failurePipeline k timeout))) = N.
Proof.
  unfold increments. induction N as [|N IH]; [reflexivity|].
  cbn [replicate concat failurePipeline app].
  rewrite filter_cons_True by reflexivity.
  rewrite filter_cons_False by discriminate.
  cbn [length]. now rewrite IH.
Qed.

Lemma shape_replicate (k : string) (timeout : JS.number) (N : nat) :
  Forall (fun c => c = Redis.INCR k \/ c = Redis.EXPIRE k (JS.floorDiv timeout 1000))
    (concat (replicate N (failurePipeline k timeout))).
Proof.
  induction N as [|N IH]; [constructor|].
  cbn [replicate concat failurePipeline app].
  constructor; [now left|]. constructor; [now right | exact IH].
Qed.

Section Recorders.

Context {E : Type}.
Variable config : CircuitBreakerModuleOptions.

(** What one recording hands to the server: its pipeline, nothing else. *)
Lemma submitted_handleCircuitBreakerError (key : string) (timeout : JS.number)
    (w : world E) :
  submitted (handleCircuitBreakerError config key timeout) w =
  [failurePipeline (getCircuitBreakerKey config key) timeout].
Proof.
  unfold submitted. rewrite handleCircuitBreakerError_run. cbn [snd sent].
  now rewrite drop_app_length.
Qed.

(** Recordings made one after the other, from an absent counter. *)
Lemma recordings_in_turn (key : string) (timeout : Z) (w : world E) (n : nat) :
  db w !! getCircuitBreakerKey config key = None ->
  1000 <= timeout <= JS.MAX_SAFE_INTEGER ->
  Z.of_nat n < Redis.LLONG_MAX ->
  let record := handleCircuitBreakerError config key timeout in
  let wn := Nat.iter n (fun w => snd (record w)) w in
  Redis.val <$> db wn !! getCircuitBreakerKey config key
    = JS.toString <$> bumped n None /\
  fst (record wn) = Resolved tt /\
  Redis.val <$> db (snd (record wn)) !! getCircuitBreakerKey config key
    = Some (JS.toString (Z.of_nat (S n))).
Proof.
  intros Habsent Htimeout. set (k := getCircuitBreakerKey config key) in *.
  induction n as [|n IH]; intros Hn record wn; subst record wn.
  - cbn [Nat.iter nat_rect bumped]. rewrite Habsent. split; [reflexivity|].
    rewrite handleCircuitBreakerError_run. fold k.
    rewrite (run_failurePipeline k timeout (db w) None);
      [| now rewrite Habsent | discriminate | exact Htimeout].
    cbn [fst snd db]. rewrite lookup_insert_eq. split; reflexivity.
  - rewrite Nat.iter_succ.
    destruct IH as (Hdb & _ & Hnext); [lia|].
    set (wn := Nat.iter n _ w) in *.
    split; [rewrite Hnext; reflexivity|].
    rewrite handleCircuitBreakerError_run. fold k.
    set (w1 := snd (handleCircuitBreakerError config key timeout wn)) in *.
    rewrite (run_failurePipeline k timeout (db w1) (Some (Z.of_nat (S n))));
      [| exact Hnext | | exact Htimeout].
    + cbn [fst snd db from_option id]. rewrite lookup_insert_eq. split; [reflexivity|].
      cbn. do 2 f_equal. lia.
    + intros c [= <-]. unfold Redis.LLONG_MIN. lia.
Qed.

(** C9, as the code has it.  [N] failures are recorded against one key
    that is absent at first, with a timeout between one second and the
    largest safe integer, so that the counter does not expire meanwhile.
    Recorded one after the other by [handleCircuitBreakerError], each
    recording resolves and the counter is [N] at the end.  Recorded at the
    same time, whatever the order in which the server serves the INCR and
    EXPIRE commands of the [N] pipelines the recorders hand to it, no
    command is refused and the counter is [N] at the end. *)
Theorem C9_no_lost_increment (N : nat) (key : string) (timeout : Z)
    (sched : list Redis.command) (w : world E) :
  (0 < N)%nat ->
  Z.of_nat N <= Redis.LLONG_MAX ->
  1000 <= timeout <= JS.MAX_SAFE_INTEGER ->
  db w !! getCircuitBreakerKey config key = None ->
  let record := handleCircuitBreakerError config key timeout in
  let k := getCircuitBreakerKey config key in
  (Redis.val <$> db (Nat.iter N (fun w => snd (record w)) w) !! k
     = Some (JS.toString (Z.of_nat N)) /\
   forall i, (i < N)%nat ->
     fst (record (Nat.iter i (fun w => snd (record w)) w)) = Resolved tt) /\
  (Redis.Interleave (concat (replicate N (submitted record w))) sched ->
   Redis.val <$> snd (Redis.run sched (db w)) !! k = Some (JS.toString (Z.of_nat N)) /\
   Forall (fun r => Redis.is_error r = false) (fst (Redis.run sched (db w)))).
Proof.
  intros HN Hmax Htimeout Habsent record k. subst record k.
  set (k := getCircuitBreakerKey config key) in *.
  split.
  - split.
    + destruct N as [|n]; [lia|].
      destruct (recordings_in_turn key timeout w n Habsent Htimeout ltac:(lia))
        as (_ & _ & Hnext).
      rewrite Nat.iter_succ. exact Hnext.
    + intros i Hi.
      now destruct (recordings_in_turn key timeout w i Habsent Htimeout ltac:(lia))
        as (_ & Hok & _).
  - rewrite submitted_handleCircuitBreakerError. fold k.
    assert (Hflat : concat (replicate N [failurePipeline k timeout])
                    = replicate N (failurePipeline k timeout)).
    { clear. induction N as [|N IH]; [reflexivity|]. cbn. now rewrite IH. }
    rewrite Hflat. intros Hsched.
    pose proof (Interleave_Permutation _ _ Hsched) as Hperm.
    assert (Hcount : increments k sched = N).
    { unfold increments. rewrite Hperm. apply increments_replicate. }
    assert (Hshape : Forall (fun c => c = Redis.INCR k \/
                       c = Redis.EXPIRE k (JS.Int (timeout / 1000))) sched).
    { rewrite Hperm.
      rewrite <- (floorDiv_exact timeout) by (unfold JS.MAX_SAFE_INTEGER in *; lia).
      apply shape_replicate. }
    destruct (run_counts k (timeout / 1000) (seconds_accepted timeout Htimeout)
                sched Hshape (db w) None) as [Hv Hr].
    + now rewrite Habsent.
    + unfold Redis.LLONG_MIN. cbn. lia.
    + rewrite Hcount. cbn [from_option id]. lia.
    + split; [|exact Hr]. rewrite Hv, Hcount.
      destruct N; [lia|]. reflexivity.
Qed.

End Recorders.

(** ** The key sent to the store *)

Section Keys.

Context {E : Type}.

(** Every request of one call of [execute] names the same key. *)
Lemma execute_sent_keys (config : CircuitBreakerModuleOptions)
    (fn : operation E) (key : string) (threshold timeout : JS.number)
    (fallbackResult : JS.value) (w : world E) :
  exists new,
    sent (snd (execute config fn key threshold timeout fallbackResult w))
      = (sent w ++ new)%list /\
    new <> [] /\
    Forall (fun r => Forall (eq (getCircuitBreakerKey config key)) (request_keys r)) new.
Proof.
  destruct (stateIn config w key threshold) eqn:Hstate.
  - rewrite execute_open by exact Hstate. cbn [snd afterStatus sent].
    eexists. split; [reflexivity|]. split; [discriminate|].
    repeat constructor.
  - destruct (fn (env w)) as [[v | error] e1] eqn:Hfn.
    + rewrite (execute_closed_resolved config fn key threshold timeout
                 fallbackResult w v e1 Hstate Hfn).
      cbn [snd sent]. eexists. split; [reflexivity|]. split; [discriminate|].
      repeat constructor.
    + destruct (countsAsFailure error) eqn:Hcount.
      * rewrite (execute_closed_rejected_counted config fn key threshold timeout
                   fallbackResult w error e1 Hstate Hfn Hcount).
        cbn [snd sent]. eexists. split; [reflexivity|]. split; [discriminate|].
        repeat constructor.
      * rewrite (execute_closed_rejected_uncounted config fn key threshold timeout
                   fallbackResult w error e1 Hstate Hfn Hcount).
        cbn [snd sent]. eexists. split; [reflexivity|]. split; [discriminate|].
        repeat constructor.
Qed.

(** The merged key is the method's [key] property when the method's
    configuration has one, be it [undefined]; else the class's. *)
Lemma final_key (classConfig methodConfig : CircuitBreakerConfig) :
  key (Decorator.finalConfig classConfig methodConfig) =
  match key methodConfig with
  | Some property => Some property
  | None => key classConfig
  end.
Proof.
  unfold Decorator.finalConfig, Decorator.spread. cbn [key].
  destruct (key methodConfig); [reflexivity|].
  destruct (key classConfig); reflexivity.
Qed.

Lemma redisKey_specKey (className : string) (final : CircuitBreakerConfig) :
  Decorator.redisKey className final = specKey className (callKey final).
Proof.
  unfold Decorator.redisKey, specKey, callKey.
  destruct (key final) as [[k|]|]; [|reflexivity..].
  destruct (String.eqb k "") eqn:Hk; [reflexivity|]. now rewrite Hk.
Qed.

Lemma getCircuitBreakerKey_specKey (config : CircuitBreakerModuleOptions) (k : string) :
  k <> "" ->
  getCircuitBreakerKey config k =
  specKey (getCircuitBreakerServiceName config) (Some k).
Proof.
  intros Hk. unfold specKey.
  destruct (String.eqb_spec k ""); [congruence | reflexivity].
Qed.

Lemma specKey_nonempty (scopeId : string) (callKey : option string) :
  specKey scopeId callKey <> "".
Proof.
  unfold specKey. destruct callKey as [k|]; [destruct (String.eqb k "")|];
    discriminate.
Qed.

(** C8, as the code has it.  The decorator merges the defaults, the
    class's and the method's configuration by object spread, so the merged
    [key] is the method's [key] property when the method's configuration
    has one (also when its value is [undefined]) and the class's
    otherwise.  From the name of the decorated class and the merged key
    (an undefined or empty key counts as none) it builds the key
    [prefix:className] or [prefix:className:callKey]; the engine places it
    behind its own prefix and the service name of the module, and that is
    the key of every request a protected call sends to the store.  The key
    is a function of the service name, the class name and the merged key
    alone: it depends neither on the world nor on the operation,
    thresholds or timeouts. *)
Theorem C8_store_key (options : CircuitBreakerModuleOptions)
    (className : string) (classConfig methodConfig : CircuitBreakerConfig)
    (originalMethod : operation E) (w : world E) :
  let final := Decorator.finalConfig classConfig methodConfig in
  let breakerKey := specKey className (callKey final) in
  let storeKey := specKey (getCircuitBreakerServiceName options) (Some breakerKey) in
  key final =
    match key methodConfig with
    | Some property => Some property
    | None => key classConfig
    end /\
  Decorator.redisKey className final = breakerKey /\
  exists new,
    sent (snd (Decorator.wrapped (Some options) className classConfig methodConfig
                 originalMethod w)) = (sent w ++ new)%list /\
    new <> [] /\
    Forall (fun r => Forall (eq storeKey) (request_keys r)) new.
Proof.
  intros final breakerKey storeKey. subst final breakerKey storeKey.
  split; [apply final_key|].
  rewrite redisKey_specKey. split; [reflexivity|].
  unfold Decorator.wrapped.
  rewrite redisKey_specKey.
  rewrite <- getCircuitBreakerKey_specKey by apply specKey_nonempty.
  apply execute_sent_keys.
Qed.

End Keys.

(* ===================================================================== *)
(** * Worked inputs *)
(* ===================================================================== *)

Example parseInt_sign_and_rest : JS.parseInt "  -42abc" = JS.Int (-42).
Proof. reflexivity. Qed.

Example parseInt_hexadecimal : JS.parseInt "0x1f" = JS.Int 31.
Proof. reflexivity. Qed.

Example parseInt_not_a_number : JS.parseInt "abc" = JS.NotANumber.
Proof. reflexivity. Qed.

(** Past 2^53 [parseInt] returns the nearest double, not the integer
    written. *)
Example parseInt_rounds_to_a_double :
  JS.parseInt "9007199254740993" = JS.Int 9007199254740992 /\
  JS.parseInt "9007199254740995" = JS.Int 9007199254740996.
Proof. vm_compute. split; reflexivity. Qed.

(** A no-break space (C2 A0 in UTF-8) and an ideographic space (E3 80 80)
    are skipped like a blank. *)
Example parseInt_skips_unicode_space :
  JS.parseInt (String (ascii_of_N 194) (String (ascii_of_N 160)
                (String (ascii_of_N 227) (String (ascii_of_N 128)
                  (String (ascii_of_N 128) "7"))))) = JS.Int 7.
Proof. vm_compute. reflexivity. Qed.

(** [Math.floor(timeout / 1000)] is computed on doubles: for 2^73 it is
    not the integer quotient 9444732965739290427. *)
Example floorDiv_on_doubles :
  JS.floorDiv (2 ^ 73) 1000 = JS.Int 9444732965739290624 /\
  JS.floorDiv 12500 1000 = JS.Int 12.
Proof. vm_compute. split; reflexivity. Qed.

Example three_failures_open_the_circuit :
  let failing := fails (HttpException "Internal Server Error" 500) in
  let run w := snd (execute payments failing "charge" 3 10000 JS.Undefined w) in
  let w3 := run (run (run fresh_world)) in
  Redis.val <$> db w3 !! chargeKey = Some "3" /\
  env w3 = 3%nat /\
  execute payments failing "charge" 3 10000 (JS.Obj 1) w3 =
  (Resolved (JS.Obj 1),
   World (db w3) (sent w3 ++ [Single (Redis.GET chargeKey)]) 3%nat).
Proof. vm_compute. repeat split. Qed.

(** C1, where it fails.  The counter holds 9007199254740995, the threshold
    is the number 9007199254740996: the counter is below the threshold,
    yet [parseInt] rounds it to the double 9007199254740996 and the derived
    state is OPEN. *)
Lemma C1_rounded_counter_opens :
  let counter := 9007199254740995 in
  let threshold := 9007199254740996 in
  let w := world_with (JS.toString counter) None in
  JS.toDouble threshold = JS.Int threshold /\
  Redis.val <$> db w !! getCircuitBreakerKey payments "charge"
    = Some (JS.toString counter) /\
  counter < threshold /\
  fst (getCircuitBreakerStatus payments "charge" threshold w) = Resolved OPEN.
Proof. vm_compute. repeat split. Qed.

(** C2.  The circuit is OPEN (the counter holds 3, the threshold is 3) and
    a fallback is supplied, but it is falsy: 0, false or the empty string.
    [execute] does not return it; it rejects with the 503 exception, as if
    no fallback had been given.  The wrapped operation is not called. *)
Theorem C2_falsy_fallback_is_not_returned :
  let w := world_with "3" (Some 10) in
  let unavailable :=
    Rejected (HttpException "Service is unavailable - Circuit Breaker is open" 503) in
  stateIn payments w "charge" 3 = OPEN /\
  execute payments (succeeds (JS.Str "paid")) "charge" 3 10000 (JS.Num 0) w
    = (unavailable, afterStatus payments w "charge") /\
  execute payments (succeeds (JS.Str "paid")) "charge" 3 10000 (JS.Bool false) w
    = (unavailable, afterStatus payments w "charge") /\
  execute payments (succeeds (JS.Str "paid")) "charge" 3 10000 (JS.Str "") w
    = (unavailable, afterStatus payments w "charge") /\
  env (afterStatus payments w "charge") = 0%nat.
Proof. vm_compute. repeat split. Qed.

(** C3.  An [HttpException] whose status is 600 lies outside 500-599 and
    is not 429, yet it counts: the counter is created at 1. *)
Theorem C3_status_600_counts :
  countsAsFailure (HttpException "Upstream failure" 600) = true /\
  db (snd (execute payments (fails (HttpException "Upstream failure" 600))
             "charge" 3 10000 JS.Undefined fresh_world)) !! chargeKey
    = Some (Redis.Entry "1" (Some 10)).
Proof. vm_compute. split; reflexivity. Qed.

(** C4, where it fails.  The pipeline of one recording is served together
    with the GET of another client: served between INCR and EXPIRE, the
    reader finds the counter at 1 with no time to live, which is neither
    the database before the pipeline nor the one after it. *)
Lemma C4_pipeline_is_not_atomic :
  ~ AtomicBatch (failurePipeline chargeKey 10000) (Redis.GET chargeKey) ∅.
Proof.
  intros Hatomic.
  specialize (Hatomic
    [Redis.INCR chargeKey; Redis.GET chargeKey; Redis.EXPIRE chargeKey 10]
    [Redis.INCR chargeKey] [Redis.EXPIRE chargeKey 10]).
  destruct Hatomic as [Hseen | Hseen].
  - apply (Redis.Interleave_step _ 0%nat _ [Redis.EXPIRE chargeKey 10]);
      [reflexivity|].
    apply (Redis.Interleave_step _ 1%nat _ []); [reflexivity|].
    apply (Redis.Interleave_step _ 0%nat _ []); [reflexivity|].
    apply Redis.Interleave_done. repeat constructor.
  - reflexivity.
  - apply (f_equal (fun m => m !! chargeKey)) in Hseen.
    vm_compute in Hseen. discriminate.
  - apply (f_equal (fun m => m !! chargeKey)) in Hseen.
    vm_compute in Hseen. discriminate.
Qed.

Example reader_between_incr_and_expire :
  snd (Redis.run [Redis.INCR chargeKey] ∅) !! chargeKey = Some (Redis.Entry "1" None) /\
  fst (Redis.run [Redis.INCR chargeKey; Redis.TTL chargeKey; Redis.EXPIRE chargeKey 10] ∅)
    = [Redis.Integer 1; Redis.Integer (-1); Redis.Integer 1].
Proof. vm_compute. split; reflexivity. Qed.

(** Beyond the safe integers the recording breaks down: for a timeout of
    2^73 the seconds sent are the double 9444732965739290624, the server
    refuses them, the counter is incremented with no time to live and the
    call raises the store failure instead of the error of the operation. *)
Example oversized_timeout_is_refused :
  let original := HttpException "Bad Gateway" 502 in
  let w' := snd (execute payments (fails original) "charge" 3 (2 ^ 73) JS.Undefined
                   fresh_world) in
  sent w' = [Single (Redis.GET chargeKey);
             Pipeline [Redis.INCR chargeKey;
                       Redis.EXPIRE chargeKey (JS.Int 9444732965739290624)]] /\
  db w' !! chargeKey = Some (Redis.Entry "1" None) /\
  fst (execute payments (fails original) "charge" 3 (2 ^ 73) JS.Undefined fresh_world)
    = Rejected (Error "Failed to set circuit breaker error count expiration").
Proof. vm_compute. repeat split. Qed.

(** C6, where it fails.  The state is CLOSED (the stored value is not a
    number), the wrapped operation fails with a 502, and INCR refuses the
    stored value: [execute] raises the store failure, not the 502. *)
Lemma C6_store_failure_replaces_error :
  let w := world_with "abc" None in
  let original := HttpException "Bad Gateway" 502 in
  stateIn payments w "charge" 3 = CLOSED /\
  fst (execute payments (fails original) "charge" 3 10000 JS.Undefined w)
    = Rejected (Error "Failed to increment circuit breaker error count") /\
  fst (execute payments (fails original) "charge" 3 10000 JS.Undefined w)
    <> Rejected original.
Proof. vm_compute. repeat split. discriminate. Qed.

(** C8, where it fails.  For the class [PaymentService] in the service
    [payments], with and without a per-operation key, the key sent to the
    store is neither [prefix:scopeId] nor [prefix:scopeId:callKey], whether
    the scope is the class or the service. *)
Lemma C8_store_key_is_not_spec_key :
  let keyed := Config None None None (Some (Some "charge")) in
  let op := succeeds (JS.Str "paid") in
  let sentKeyed := "circuit-breaker:payments:circuit-breaker:PaymentService:charge" in
  let sentPlain := "circuit-breaker:payments:circuit-breaker:PaymentService" in
  sent (snd (Decorator.wrapped (Some payments) "PaymentService" empty_config keyed
               op fresh_world))
    = [Single (Redis.GET sentKeyed); Single (Redis.DEL sentKeyed)] /\
  sent (snd (Decorator.wrapped (Some payments) "PaymentService" empty_config empty_config
               op fresh_world))
    = [Single (Redis.GET sentPlain); Single (Redis.DEL sentPlain)] /\
  sentKeyed <> specKey "PaymentService" (Some "charge") /\
  sentKeyed <> specKey "payments" (Some "charge") /\
  sentPlain <> specKey "PaymentService" None /\
  sentPlain <> specKey "payments" None.
Proof. vm_compute. repeat split; discriminate. Qed.

(** A [key] property that is there with the value [undefined] hides the
    key of the class: the decorated method of [ApiService], whose class
    configuration has the key [cls], runs under the key of the class name
    alone. *)
Example undefined_key_hides_class_key :
  let classConfig := Config None None None (Some (Some "cls")) in
  let methodConfig := Config None None None (Some None) in
  Decorator.redisKey "ApiService" (Decorator.finalConfig classConfig methodConfig)
    = "circuit-breaker:ApiService" /\
  Decorator.redisKey "ApiService" (Decorator.finalConfig classConfig empty_config)
    = "circuit-breaker:ApiService:cls".
Proof. vm_compute. split; reflexivity. Qed.

(** With a timeout under one second the pipeline asks for a time to live
    of zero seconds, and the server deletes the counter it has just
    incremented. *)
Example subsecond_timeout_deletes_counter :
  failurePipeline chargeKey 999 = [Redis.INCR chargeKey; Redis.EXPIRE chargeKey 0] /\
  snd (Redis.run (failurePipeline chargeKey 999) ∅) !! chargeKey = None.
Proof. vm_compute. split; reflexivity. Qed.

(** C9, where it fails.  With a timeout of 999 milliseconds three failures
    are recorded against one key, one after the other or with their
    pipelines served together: every recording resolves, no command is
    refused, and there is no counter at the end. *)
Lemma C9_subsecond_recordings_are_lost :
  let record := handleCircuitBreakerError payments "charge" 999 in
  let w3 := Nat.iter 3 (fun w => snd (record w)) fresh_world in
  let sched :=
    [Redis.INCR chargeKey; Redis.INCR chargeKey; Redis.EXPIRE chargeKey 0;
     Redis.INCR chargeKey; Redis.EXPIRE chargeKey 0; Redis.EXPIRE chargeKey 0] in
  fst (record fresh_world) = Resolved tt /\
  db w3 !! chargeKey = None /\
  Redis.Interleave (concat (replicate 3 (submitted record fresh_world))) sched /\
  Forall (fun r => Redis.is_error r = false) (fst (Redis.run sched ∅)) /\
  snd (Redis.run sched ∅) !! chargeKey = None /\
  Redis.val <$> snd (Redis.run sched ∅) !! chargeKey <> Some (JS.toString 3).
Proof.
  intros record w3 sched.
  split; [vm_compute; reflexivity|].
  split; [vm_compute; reflexivity|].
  split.
  { assert (Hps : concat (replicate 3 (submitted record fresh_world))
                  = replicate 3 [Redis.INCR chargeKey; Redis.EXPIRE chargeKey 0])
      by (vm_compute; reflexivity).
    rewrite Hps.
    apply (Redis.Interleave_step _ 0%nat _ [Redis.EXPIRE chargeKey 0]); [reflexivity|].
    apply (Redis.Interleave_step _ 1%nat _ [Redis.EXPIRE chargeKey 0]); [reflexivity|].
    apply (Redis.Interleave_step _ 1%nat _ []); [reflexivity|].
    apply (Redis.Interleave_step _ 2%nat _ [Redis.EXPIRE chargeKey 0]); [reflexivity|].
    apply (Redis.Interleave_step _ 0%nat _ []); [reflexivity|].
    apply (Redis.Interleave_step _ 2%nat _ []); [reflexivity|].
    apply Redis.Interleave_done. repeat constructor. }
  split; [vm_compute; repeat constructor|].
  split; [vm_compute; reflexivity|].
  vm_compute. discriminate.
Qed.

(** ** The theorems at sample inputs *)

Lemma C1_state_iff_counter_witness :
  exists state,
    fst (getCircuitBreakerStatus payments "charge" 3 (world_with "5" None)) = Resolved state /\
    (state = OPEN <-> exists c, Some 5 = Some c /\ 3 <= c) /\
    (state = CLOSED <-> Some 5 = None \/ exists c, Some 5 = Some c /\ c < 3).
Proof.
  apply (C1_state_iff_counter payments "charge" 3 (Some 5) (world_with "5" None)).
  - vm_compute. reflexivity.
  - intros c [= <-]. vm_compute. discriminate.
  - reflexivity.
Defined.

Lemma C10_status_total_witness :
  exists state,
    fst (getCircuitBreakerStatus payments "charge" 3 (world_with "12abc" (Some 10)))
      = Resolved state /\
    ("12abc" = "" \/ "12abc" = "0" \/ JS.parseInt "12abc" = JS.NotANumber ->
     state = CLOSED) /\
    (state = OPEN <->
     JS.parseInt "12abc" = JS.Infinity \/
     exists n, JS.parseInt "12abc" = JS.Int n /\ 3 <= n).
Proof.
  apply (C10_status_total payments "charge" "12abc" (Some 10) 3
           (world_with "12abc" (Some 10))).
  - lia.
  - reflexivity.
  - vm_compute. reflexivity.
Defined.

Lemma C5_success_clears_counter_witness :
  let w := world_with "2" (Some 10) in
  let fn := succeeds (JS.Str "paid") in
  stateIn payments w "charge" 3 = CLOSED /\
  fn (env w) = (Resolved (JS.Str "paid"), 1%nat) /\
  fst (execute payments fn "charge" 3 10000 JS.Undefined w) = Resolved (JS.Str "paid") /\
  db (snd (execute payments fn "charge" 3 10000 JS.Undefined w)) !! chargeKey = None.
Proof.
  intros w fn.
  assert (Hclosed : stateIn payments w "charge" 3 = CLOSED) by (vm_compute; reflexivity).
  assert (Hfn : fn (env w) = (Resolved (JS.Str "paid"), 1%nat)) by reflexivity.
  split; [exact Hclosed|]. split; [exact Hfn|].
  destruct (C5_success_clears_counter payments fn "charge" 3 10000 JS.Undefined w
              (JS.Str "paid") 1%nat Hclosed Hfn) as (Hresult & _ & Habsent & _).
  split; [exact Hresult | exact Habsent].
Defined.


Lemma C6_failure_rethrown_witness :
  let w := world_with "2" (Some 10) in
  let original := HttpException "Service Unavailable" 503 in
  stateIn payments w "charge" 3 = CLOSED /\
  fst (execute payments (fails original) "charge" 3 10000 JS.Undefined w)
    = Rejected original.
Proof.
  intros w original.
  assert (Hclosed : stateIn payments w "charge" 3 = CLOSED) by (vm_compute; reflexivity).
  assert (Hfn : fails original (env w) = (Rejected original, 1%nat)) by reflexivity.
  split; [exact Hclosed|].
  destruct (C6_failure_rethrown payments (fails original) "charge" 3 10000 JS.Undefined w
              original 1%nat Hclosed Hfn) as (_ & Hsame & _).
  apply Hsame. right. vm_compute. reflexivity.
Defined.

Lemma C4_failure_recorded_witness :
  let w := world_with "2" (Some 4) in
  let original := HttpException "Too Many Requests" 429 in
  let w' := snd (execute payments (fails original) "charge" 5 12500 JS.Undefined w) in
  stateIn payments w "charge" 5 = CLOSED /\
  countsAsFailure original = true /\
  sent w' = [Single (Redis.GET chargeKey);
             Pipeline [Redis.INCR chargeKey;
                       Redis.EXPIRE chargeKey (JS.Int (12500 / 1000))]] /\
  db w' !! chargeKey = Some (Redis.Entry (JS.toString (2 + 1)) (Some (12500 / 1000))).
Proof.
  intros w original w'.
  assert (Hclosed : stateIn payments w "charge" 5 = CLOSED) by (vm_compute; reflexivity).
  assert (Hfn : fails original (env w) = (Rejected original, 1%nat)) by reflexivity.
  assert (Hcount : countsAsFailure original = true) by reflexivity.
  assert (Hstored : Redis.val <$> db w !! getCircuitBreakerKey payments "charge"
                    = JS.toString <$> Some 2) by (vm_compute; reflexivity).
  assert (Hrange : forall c, Some 2 = Some c -> Redis.LLONG_MIN <= c < Redis.LLONG_MAX).
  { intros c [= <-]. vm_compute. split; [discriminate | reflexivity]. }
  assert (Htimeout : 1000 <= 12500 <= JS.MAX_SAFE_INTEGER).
  { vm_compute. split; discriminate. }
  split; [exact Hclosed|]. split; [exact Hcount|].
  destruct (C4_failure_recorded payments (fails original) "charge" 5 12500 JS.Undefined w
              original 1%nat (Some 2) Hclosed Hfn Hcount Hstored Hrange Htimeout)
    as (Hsent & Hdb & _).
  split; [exact Hsent | exact Hdb].
Defined.

Lemma C9_no_lost_increment_witness :
  let record := handleCircuitBreakerError payments "charge" 10000 in
  let sched :=
    [Redis.INCR chargeKey; Redis.INCR chargeKey; Redis.EXPIRE chargeKey 10;
     Redis.INCR chargeKey; Redis.EXPIRE chargeKey 10; Redis.EXPIRE chargeKey 10] in
  Redis.Interleave (concat (replicate 3 (submitted record fresh_world))) sched /\
  Redis.val <$> db (Nat.iter 3 (fun w => snd (record w)) fresh_world) !! chargeKey
    = Some (JS.toString 3) /\
  Redis.val <$> snd (Redis.run sched ∅) !! chargeKey = Some (JS.toString 3).
Proof.
  intros record sched.
  assert (Hsched : Redis.Interleave
                     (concat (replicate 3 (submitted record fresh_world))) sched).
  { assert (Hps : concat (replicate 3 (submitted record fresh_world))
                  = replicate 3 [Redis.INCR chargeKey; Redis.EXPIRE chargeKey 10])
      by (vm_compute; reflexivity).
    rewrite Hps.
    apply (Redis.Interleave_step _ 0%nat _ [Redis.EXPIRE chargeKey 10]); [reflexivity|].
    apply (Redis.Interleave_step _ 1%nat _ [Redis.EXPIRE chargeKey 10]); [reflexivity|].
    apply (Redis.Interleave_step _ 1%nat _ []); [reflexivity|].
    apply (Redis.Interleave_step _ 2%nat _ [Redis.EXPIRE chargeKey 10]); [reflexivity|].
    apply (Redis.Interleave_step _ 0%nat _ []); [reflexivity|].
    apply (Redis.Interleave_step _ 2%nat _ []); [reflexivity|].
    apply Redis.Interleave_done. repeat constructor. }
  split; [exact Hsched|].
  destruct (C9_no_lost_increment payments 3 "charge" 10000 sched fresh_world)
    as [[Hturn _] Htogether].
  - lia.
  - vm_compute. discriminate.
  - vm_compute. split; discriminate.
  - reflexivity.
  - split; [exact Hturn|]. apply Htogether. exact Hsched.
Defined.

(* ===================================================================== *)
(** * Further properties of the engine *)
(* ===================================================================== *)

Section Engine.

Context {E : Type}.
Variable config : CircuitBreakerModuleOptions.

Implicit Types (fn : operation E) (w : world E) (key : string).
Implicit Types (threshold timeout : Z) (fallbackResult : JS.value).

(** X1.  While the circuit is OPEN a call is inert: the database and the
    environment of the wrapped operation are left as they were, the only
    request sent is the GET, the outcome does not depend on the operation,
    and the circuit is still OPEN afterwards.  The engine itself never
    closes an open circuit. *)
Theorem open_circuit_is_inert fn fn' key threshold timeout fallbackResult w :
  stateIn config w key threshold = OPEN ->
  let w' := snd (execute config fn key threshold timeout fallbackResult w) in
  db w' = db w /\
  env w' = env w /\
  sent w' = (sent w ++ [Single (Redis.GET (getCircuitBreakerKey config key))])%list /\
  stateIn config w' key threshold = OPEN /\
  execute config fn key threshold timeout fallbackResult w
    = execute config fn' key threshold timeout fallbackResult w.
Proof.
  intros Hopen w'. subst w'. rewrite !execute_open by exact Hopen.
  cbn [snd afterStatus db env sent]. repeat split. exact Hopen.
Qed.

(** X2.  While the circuit is OPEN the outcome is decided by the
    truthiness of the fallback.  With a falsy or missing one the call is
    rejected with the 503 exception.  A truthy one is returned from the
    async function: the call ends as the fallback settles when it is a
    thenable, and resolves with the fallback itself when it is not. *)
Theorem open_outcome_by_truthiness
    fn key (threshold timeout : JS.number) fallbackResult w :
  stateIn config w key threshold = OPEN ->
  fst (execute config fn key threshold timeout fallbackResult w) =
    (if JS.truthy fallbackResult then JS.settle fallbackResult
     else Rejected
            (HttpException "Service is unavailable - Circuit Breaker is open" 503)) /\
  (JS.truthy fallbackResult = true -> plain fallbackResult ->
   fst (execute config fn key threshold timeout fallbackResult w)
     = Resolved fallbackResult).
Proof.
  intros Hopen. rewrite execute_open by exact Hopen. cbn [fst].
  rewrite truthy_default_param.
  destruct (JS.truthy fallbackResult) eqn:Htruthy.
  - rewrite default_param_truthy by exact Htruthy.
    split; [reflexivity|]. intros _ Hplain. now apply settle_plain.
  - split; [reflexivity | discriminate].
Qed.

(** X3.  The ways a call ends, in a store that answers every command.  It
    resolves with what a truthy fallback settles to (OPEN) or with the
    result of the operation (CLOSED).  It is rejected with the 503
    exception (OPEN, no truthy fallback), with the error a truthy thenable
    fallback rejects with (OPEN), with the very error of the operation
    (CLOSED), or with one of the two store failures of
    [handleCircuitBreakerError] (CLOSED, the error counted). *)
Theorem execute_outcomes fn key (threshold timeout : JS.number) fallbackResult w :
  match fst (execute config fn key threshold timeout fallbackResult w) with
  | Resolved v =>
      (stateIn config w key threshold = OPEN /\
       JS.truthy fallbackResult = true /\ JS.settle fallbackResult = Resolved v) \/
      (stateIn config w key threshold = CLOSED /\ fst (fn (env w)) = Resolved v)
  | Rejected raised =>
      (stateIn config w key threshold = OPEN /\
       JS.truthy fallbackResult = false /\
       raised = HttpException "Service is unavailable - Circuit Breaker is open" 503) \/
      (stateIn config w key threshold = OPEN /\
       JS.truthy fallbackResult = true /\ JS.settle fallbackResult = Rejected raised) \/
      (stateIn config w key threshold = CLOSED /\ fst (fn (env w)) = Rejected raised) \/
      (stateIn config w key threshold = CLOSED /\
       (exists original,
          fst (fn (env w)) = Rejected original /\ countsAsFailure original = true) /\
       (raised = Error "Failed to increment circuit breaker error count" \/
        raised = Error "Failed to set circuit breaker error count expiration"))
  end.
Proof.
  destruct (stateIn config w key threshold) eqn:Hstate.
  - rewrite execute_open by exact Hstate. cbn [fst].
    rewrite truthy_default_param.
    destruct (JS.truthy fallbackResult) eqn:Htruthy.
    + rewrite default_param_truthy by exact Htruthy.
      destruct (JS.settle fallbackResult) as [v | raised] eqn:Hsettle.
      * left. repeat split.
      * right; left. repeat split.
    + left. repeat split.
  - destruct (fn (env w)) as [[v | error] e1] eqn:Hfn.
    + rewrite (execute_closed_resolved config fn key threshold timeout
                 fallbackResult w v e1 Hstate Hfn).
      right. split; reflexivity.
    + destruct (countsAsFailure error) eqn:Hcount.
      * rewrite (execute_closed_rejected_counted config fn key threshold timeout
                   fallbackResult w error e1 Hstate Hfn Hcount).
        cbn [fst]. unfold recorded.
        destruct (errorAt _ 0); [|destruct (errorAt _ 1)].
        -- right; right; right. split; [reflexivity|]. split; [eauto|]. now left.
        -- right; right; right. split; [reflexivity|]. split; [eauto|]. now right.
        -- right; right; left. split; reflexivity.
      * rewrite (execute_closed_rejected_uncounted config fn key threshold timeout
                   fallbackResult w error e1 Hstate Hfn Hcount).
        right; right; left. split; reflexivity.
Qed.

(** X4.  The traffic of one call, for every threshold and timeout a number
    can be: always the GET of the key first; then a DEL of the same key
    after a success, the pipeline of INCR and EXPIRE on the same key, with
    the seconds [Math.floor(timeout / 1000)] as a double, after a failure
    that counts, and nothing at all when the circuit is OPEN or the
    failure does not count.  No other request, and no other key, is ever
    sent. *)
Theorem execute_requests fn key (threshold timeout : JS.number) fallbackResult w :
  let k := getCircuitBreakerKey config key in
  sent (snd (execute config fn key threshold timeout fallbackResult w)) =
  (sent w ++ Single (Redis.GET k)
     :: followUp k timeout (stateIn config w key threshold) (fst (fn (env w))))%list /\
  forall c, In c (concat (map commands_of
      (followUp k timeout (stateIn config w key threshold) (fst (fn (env w)))))) ->
    c = Redis.DEL k \/ c = Redis.INCR k \/
    c = Redis.EXPIRE k (JS.floorDiv timeout 1000).
Proof.
  intros k. subst k. split.
  - destruct (stateIn config w key threshold) eqn:Hstate.
    + now rewrite execute_open by exact Hstate.
    + destruct (fn (env w)) as [[v | error] e1] eqn:Hfn; cbn [fst followUp].
      * now rewrite (execute_closed_resolved config fn key threshold timeout
                       fallbackResult w v e1 Hstate Hfn).
      * destruct (countsAsFailure error) eqn:Hcount.
        -- now rewrite (execute_closed_rejected_counted config fn key threshold timeout
                          fallbackResult w error e1 Hstate Hfn Hcount).
        -- now rewrite (execute_closed_rejected_uncounted config fn key threshold
                          timeout fallbackResult w error e1 Hstate Hfn Hcount).
  - intros c. unfold followUp, failurePipeline.
    destruct (stateIn config w key threshold); [intros []|].
    destruct (fst (fn (env w))) as [v | error].
    + cbn. intros [<- | []]. now left.
    + destruct (countsAsFailure error); cbn; [|intros []].
      intros [<- | [<- | []]]; [right; now left | right; now right].
Qed.

Lemma stateIn_absent w key (threshold : JS.number) :
  db w !! getCircuitBreakerKey config key = None ->
  stateIn config w key threshold = CLOSED.
Proof. unfold stateIn. now intros ->. Qed.

Lemma stateIn_same_db w w' key (threshold : JS.number) :
  db w' = db w ->
  stateIn config w' key threshold = stateIn config w key threshold.
Proof. unfold stateIn. now intros ->. Qed.

(** One call under a timeout below one second. *)
Lemma subsecond_call fn key (threshold : JS.number) timeout fallbackResult w :
  0 <= timeout < 1000 ->
  stateIn config w key threshold = CLOSED ->
  let w' := snd (execute config fn key threshold timeout fallbackResult w) in
  stateIn config w' key threshold = CLOSED /\
  (forall error e1,
     fn (env w) = (Rejected error, e1) -> countsAsFailure error = true ->
     db w' !! getCircuitBreakerKey config key = None).
Proof.
  intros Htimeout Hclosed w'. subst w'.
  destruct (fn (env w)) as [[v | error] e1] eqn:Hfn.
  - rewrite (execute_closed_resolved config fn key threshold timeout
               fallbackResult w v e1 Hclosed Hfn).
    split; [|discriminate]. apply stateIn_absent. apply lookup_delete_eq.
  - destruct (countsAsFailure error) eqn:Hcount.
    + rewrite (execute_closed_rejected_counted config fn key threshold timeout
                 fallbackResult w error e1 Hclosed Hfn Hcount).
      cbn [snd db].
      assert (Habsent := run_failurePipeline_subsecond
                (getCircuitBreakerKey config key) timeout (db w) Htimeout).
      split; [now apply stateIn_absent|]. intros; exact Habsent.
    + rewrite (execute_closed_rejected_uncounted config fn key threshold timeout
                 fallbackResult w error e1 Hclosed Hfn Hcount).
      split; [exact Hclosed|]. intros error' e1' [= <- <-] Hcount'. congruence.
Qed.

(** X5.  Under a timeout from 0 to 999 milliseconds, calls made one after
    the other never open the circuit: [Math.floor(timeout / 1000)] is then
    zero, and the EXPIRE of the failure pipeline deletes the key whatever
    it held.  A circuit that is CLOSED is still CLOSED after any number of
    such calls, whatever their operations do, and a failure that counts
    leaves no counter behind. *)
Theorem subsecond_timeout_never_opens
    (fns : list (operation E)) key (threshold : JS.number) timeout fallbackResult w :
  0 <= timeout < 1000 ->
  stateIn config w key threshold = CLOSED ->
  let call w fn := snd (execute config fn key threshold timeout fallbackResult w) in
  stateIn config (fold_left call fns w) key threshold = CLOSED /\
  (forall fn error e1,
     fn (env w) = (Rejected error, e1) -> countsAsFailure error = true ->
     db (call w fn) !! getCircuitBreakerKey config key = None).
Proof.
  intros Htimeout Hclosed call. split.
  - revert w Hclosed. induction fns as [|fn fns IH]; intros w Hclosed.
    + exact Hclosed.
    + cbn [fold_left]. apply IH. subst call.
      now apply (subsecond_call fn key threshold timeout fallbackResult w).
  - intros fn error e1 Hfn Hcount. subst call.
    exact (proj2 (subsecond_call fn key threshold timeout fallbackResult w
                    Htimeout Hclosed) error e1 Hfn Hcount).
Qed.

(** X6.  A counter the engine cannot increment.  When the key holds a string
    that is not a 64-bit integer in decimal, the state is CLOSED, the
    operation fails with an error that counts, and the timeout lies
    between one second and the largest safe integer, the INCR is refused
    but the EXPIRE of the same pipeline is served all the same: the stored
    string is kept and given the time to live of the breaker, and the call
    is rejected with the store failure.  Other keys are not touched. *)
Theorem unreadable_counter_failure
    fn key (threshold : JS.number) timeout fallbackResult w error e1 stored life :
  db w !! getCircuitBreakerKey config key = Some (Redis.Entry stored life) ->
  Redis.string2ll stored = None ->
  stateIn config w key threshold = CLOSED ->
  fn (env w) = (Rejected error, e1) ->
  countsAsFailure error = true ->
  1000 <= timeout <= JS.MAX_SAFE_INTEGER ->
  let k := getCircuitBreakerKey config key in
  let w' := snd (execute config fn key threshold timeout fallbackResult w) in
  fst (execute config fn key threshold timeout fallbackResult w)
    = Rejected (Error "Failed to increment circuit breaker error count") /\
  db w' !! k = Some (Redis.Entry stored (Some (timeout / 1000))) /\
  (forall other, other <> k -> db w' !! other = db w !! other).
Proof.
  intros Hstored Hbad Hclosed Hfn Hcount Htimeout k w'. subst k w'.
  rewrite (execute_closed_rejected_counted config fn key threshold timeout
             fallbackResult w error e1 Hclosed Hfn Hcount).
  rewrite failurePipeline_seconds by (unfold JS.MAX_SAFE_INTEGER in *; lia).
  cbn [Redis.run Redis.exec_command].
  unfold Redis.incr. rewrite Hstored. cbn [Redis.val]. rewrite Hbad.
  rewrite (expire_sets _ (timeout / 1000) (db w) _ (seconds_accepted timeout Htimeout)
             Hstored).
  cbn [fst snd db Redis.val].
  split; [reflexivity|]. split; [apply lookup_insert_eq|].
  intros other Hother. now apply lookup_insert_ne.
Qed.

(** X7.  The counter stays within the threshold.  With a threshold between 1
    and the 64-bit maximum, a key that is absent or holds an integer
    between 1 and the threshold is, after any call (whatever the
    operation does, whatever the timeout and the fallback), again absent
    or an integer between 1 and the threshold: calls made one after the
    other never push the counter past the threshold, and never leave a
    value INCR cannot read. *)
Theorem execute_keeps_counter_within fn key threshold timeout fallbackResult w :
  1 <= threshold <= Redis.LLONG_MAX ->
  counterWithin (db w) (getCircuitBreakerKey config key) threshold ->
  counterWithin
    (db (snd (execute config fn key threshold timeout fallbackResult w)))
    (getCircuitBreakerKey config key) threshold.
Proof.
  intros Hthreshold Hwithin.
  set (k := getCircuitBreakerKey config key) in *.
  destruct (stateIn config w key threshold) eqn:Hstate.
  - rewrite execute_open by exact Hstate. exact Hwithin.
  - destruct (fn (env w)) as [[v | error] e1] eqn:Hfn.
    + rewrite (execute_closed_resolved config fn key threshold timeout
                 fallbackResult w v e1 Hstate Hfn).
      left. apply lookup_delete_eq.
    + destruct (countsAsFailure error) eqn:Hcount.
      2:{ rewrite (execute_closed_rejected_uncounted config fn key threshold timeout
                     fallbackResult w error e1 Hstate Hfn Hcount).
          exact Hwithin. }
      rewrite (execute_closed_rejected_counted config fn key threshold timeout
                 fallbackResult w error e1 Hstate Hfn Hcount).
      cbn [snd db]. fold k. rewrite run_failurePipeline_snd.
      destruct (incr_lookup k (db w)) as (e & He & Hnone & Hsome & _).
      assert (Hentry : exists c life,
                e = Redis.Entry (JS.toString c) life /\ 1 <= c <= threshold).
      { destruct Hwithin as [Habsent | (c & life & Hc & Hrange)].
        - exists 1, None. split; [now apply Hnone | lia].
        - assert (Hbelow : c < threshold).
          { unfold stateIn in Hstate. fold k in Hstate.
            rewrite Hc in Hstate. cbn [fmap option_fmap option_map Redis.val] in Hstate.
            rewrite statusOf_counter in Hstate.
            destruct (Z.eq_dec c threshold) as [-> | Hne]; [|lia].
            rewrite ge_number_refl in Hstate by apply toDouble_not_nan.
            discriminate. }
          exists (c + 1), life. split; [|lia].
          apply (Hsome c life Hc). unfold Redis.LLONG_MIN. lia. }
      destruct Hentry as (c & life & -> & Hrange).
      destruct (expire_lookup k (JS.floorDiv timeout 1000) (snd (Redis.incr k (db w))))
        as [Hgone | [Hsame | (e & s & He' & Hset)]].
      * now left.
      * right. exists c, life. split; [now rewrite Hsame | exact Hrange].
      * right. rewrite He in He'. injection He' as <-.
        exists c, (Some s). split; [exact Hset | exact Hrange].
Qed.

End Engine.

Section Sequences.

Context {E : Type}.
Variable config : CircuitBreakerModuleOptions.

(** X8.  Consecutive failures and the trip.  From an absent counter, with a
    threshold from 1 to the largest safe integer and a timeout from one
    second to the largest safe integer, [n] calls made one after the other
    (for [n] up to the threshold), whose operation fails each time with an
    error that counts, call the operation [n] times and leave the counter
    at [n] with the time to live of the breaker; the circuit is OPEN
    exactly when [n] has reached the threshold, and CLOSED before. *)
Theorem consecutive_failures_open_the_circuit
    (fn : operation E) (key : string) (threshold timeout : Z)
    (fallbackResult : JS.value) (w : world E) (n : nat) :
  db w !! getCircuitBreakerKey config key = None ->
  (forall e, exists error e',
     fn e = (Rejected error, e') /\ countsAsFailure error = true) ->
  1000 <= timeout <= JS.MAX_SAFE_INTEGER ->
  1 <= threshold <= JS.MAX_SAFE_INTEGER ->
  Z.of_nat n <= threshold ->
  let wn :=
    Nat.iter n
      (fun w => snd (execute config fn key threshold timeout fallbackResult w)) w in
  db wn !! getCircuitBreakerKey config key =
    match n with
    | O => None
    | S _ => Some (Redis.Entry (JS.toString (Z.of_nat n)) (Some (timeout / 1000)))
    end /\
  env wn = Nat.iter n (fun e => snd (fn e)) (env w) /\
  stateIn config wn key threshold =
    if Z.of_nat n =? threshold then OPEN else CLOSED.
Proof.
  intros Habsent Hfails Htimeout Hthreshold.
  assert (Hsafe : JS.MAX_SAFE_INTEGER < 2 ^ 53) by reflexivity.
  set (k := getCircuitBreakerKey config key) in *.
  induction n as [|n IH]; intros Hn wn; subst wn.
  - cbn [Nat.iter nat_rect]. split; [exact Habsent|]. split; [reflexivity|].
    rewrite stateIn_absent by exact Habsent.
    destruct (Z.eqb_spec (Z.of_nat 0) threshold); [lia | reflexivity].
  - rewrite !Nat.iter_succ.
    destruct IH as (Hdb & Henv & Hstate); [lia|].
    set (wn := Nat.iter n _ w) in *.
    destruct (Z.eqb_spec (Z.of_nat n) threshold) as [|_]; [lia|].
    destruct (Hfails (env wn)) as (error & e' & Hfn & Hcount).
    rewrite (execute_closed_rejected_counted config fn key threshold timeout
               fallbackResult wn error e' Hstate Hfn Hcount).
    fold k.
    assert (Hstored : Redis.val <$> db wn !! k = JS.toString <$> bumped n None).
    { rewrite Hdb. destruct n; reflexivity. }
    rewrite (run_failurePipeline k timeout (db wn) (bumped n None) Hstored).
    + assert (Hnext : default 0 (bumped n None) + 1 = Z.of_nat (S n)).
      { destruct n; cbn [bumped from_option id]; lia. }
      rewrite Hnext. cbn [snd db env].
      split; [apply lookup_insert_eq|]. split; [now rewrite <- Henv, Hfn|].
      unfold stateIn. cbn [db]. fold k. rewrite lookup_insert_eq.
      cbn [fmap option_fmap option_map Redis.val]. rewrite statusOf_counter.
      rewrite !toDouble_exact by lia. rewrite ge_number_Int.
      destruct (Z.leb_spec threshold (Z.of_nat (S n)));
        destruct (Z.eqb_spec (Z.of_nat (S n)) threshold); try reflexivity; lia.
    + intros c Hc. destruct n; cbn [bumped] in Hc; [discriminate|].
      injection Hc as <-. unfold Redis.LLONG_MIN, Redis.LLONG_MAX.
      cbn [from_option id]. lia.
    + exact Htimeout.
Qed.

End Sequences.

(* ===================================================================== *)
(** * Keys and isolation *)
(* ===================================================================== *)

Lemma append_nil_r (s : string) : s +:+ "" = s.
Proof.
  induction s as [|a s IH]; [reflexivity|].
  change (String a (s +:+ "") = String a s). now rewrite IH.
Qed.

Lemma append_assoc (a b c : string) : (a +:+ b) +:+ c = a +:+ (b +:+ c).
Proof.
  induction a as [|x a IH]; [reflexivity|].
  change (String x ((a +:+ b) +:+ c) = String x (a +:+ (b +:+ c))). now rewrite IH.
Qed.

Lemma append_eq_self (s t : string) : s +:+ t = s -> t = "".
Proof.
  intros H. apply (inj (String.append s) t ""). rewrite append_nil_r. exact H.
Qed.

(** X9.  Within one service the store key determines the key given to
    [execute]: two different keys never name the same counter. *)
Theorem getCircuitBreakerKey_inj (config : CircuitBreakerModuleOptions)
    (key1 key2 : string) :
  getCircuitBreakerKey config key1 = getCircuitBreakerKey config key2 ->
  key1 = key2.
Proof.
  unfold getCircuitBreakerKey. intros H.
  repeat (apply (inj (String.append _)) in H). exact H.
Qed.

(** X10.  Across services the store key is ambiguous: nothing escapes the
    colon, so the service [s:a] with the key [b] and the service [s] with
    the key [a:b] use one and the same counter. *)
Theorem getCircuitBreakerKey_colon_collision (s a b : string) :
  getCircuitBreakerKey (Options (Some (s +:+ ":" +:+ a))) b =
  getCircuitBreakerKey (Options (Some s)) (a +:+ ":" +:+ b).
Proof.
  unfold getCircuitBreakerKey, getCircuitBreakerServiceName. cbn [serviceName].
  f_equal. f_equal. now rewrite !append_assoc.
Qed.

(** X11.  Two methods of one class share a breaker key exactly when their
    per-operation keys are the same, an empty key counting as no key: the
    methods without a key all share the key of the class, and a method with
    a key of its own shares it with none of them. *)
Theorem redisKey_shared_iff (className : string) (c1 c2 : CircuitBreakerConfig) :
  Decorator.redisKey className c1 = Decorator.redisKey className c2 <->
  callKey c1 = callKey c2.
Proof.
  unfold Decorator.redisKey, callKey.
  destruct (key c1) as [[k1|]|], (key c2) as [[k2|]|];
    try destruct (String.eqb_spec k1 ""); try destruct (String.eqb_spec k2 "");
    split; intros H; try reflexivity; try discriminate;
    try (now injection H as ->);
    try (do 3 apply (inj (String.append _)) in H; now subst);
    try (exfalso; apply (inj (String.append _)) in H;
         first [ apply append_eq_self in H; discriminate
               | symmetry in H; apply append_eq_self in H; discriminate ]).
Qed.


Section Isolation.

Context {E : Type}.
Variable config : CircuitBreakerModuleOptions.

(** X12.  A call touches only its own key: whatever the call does, every other
    key of the database holds afterwards what it held before; so the state
    of a circuit with another key is the same before and after the call. *)
Theorem circuits_are_isolated (fn : operation E) (key key' : string)
    (threshold threshold' timeout : Z) (fallbackResult : JS.value) (w : world E) :
  key' <> key ->
  let w' := snd (execute config fn key threshold timeout fallbackResult w) in
  (forall other, other <> getCircuitBreakerKey config key ->
     db w' !! other = db w !! other) /\
  stateIn config w' key' threshold' = stateIn config w key' threshold'.
Proof.
  intros Hkey w'. subst w'.
  assert (Hframe : forall other, other <> getCircuitBreakerKey config key ->
    db (snd (execute config fn key threshold timeout fallbackResult w)) !! other
    = db w !! other).
  { intros other Hother.
    destruct (stateIn config w key threshold) eqn:Hstate.
    - now rewrite execute_open by exact Hstate.
    - destruct (fn (env w)) as [[v | error] e1] eqn:Hfn.
      + rewrite (execute_closed_resolved config fn key threshold timeout
                   fallbackResult w v e1 Hstate Hfn).
        cbn [snd db]. now apply lookup_delete_ne.
      + destruct (countsAsFailure error) eqn:Hcount.
        * rewrite (execute_closed_rejected_counted config fn key threshold timeout
                     fallbackResult w error e1 Hstate Hfn Hcount).
          cbn [snd db]. now apply run_failurePipeline_frame.
        * now rewrite (execute_closed_rejected_uncounted config fn key threshold
                         timeout fallbackResult w error e1 Hstate Hfn Hcount). }
  split; [exact Hframe|].
  unfold stateIn. rewrite Hframe; [reflexivity|].
  intros Heq. apply Hkey. unfold getCircuitBreakerKey in Heq.
  repeat (apply (inj (String.append _)) in Heq). exact Heq.
Qed.

End Isolation.

(* ===================================================================== *)
(** * Configuration, decorator and interceptor *)
(* ===================================================================== *)

(** X13.  The layers of the configuration are merged by object spread:
    for each field the method's property wins when the method's
    configuration has it, be its value [undefined]; then the class's; then
    the default (3 failures, 10000 ms); the fallback and the key have no
    default.  A property missing at one layer falls through to the next
    one, so the merged configuration always has a threshold and a timeout
    property, which is a number unless the winning layer holds
    [undefined]. *)
Theorem finalConfig_precedence (classConfig methodConfig : CircuitBreakerConfig) :
  let final := Decorator.finalConfig classConfig methodConfig in
  threshold final =
    match threshold methodConfig, threshold classConfig with
    | Some property, _ => Some property
    | None, Some property => Some property
    | None, None => Some (Some (JS.Int 3))
    end /\
  timeout final =
    match timeout methodConfig, timeout classConfig with
    | Some property, _ => Some property
    | None, Some property => Some property
    | None, None => Some (Some (JS.Int 10000))
    end /\
  fallbackResult final =
    match fallbackResult methodConfig with
    | Some v => Some v
    | None => fallbackResult classConfig
    end /\
  key final =
    match key methodConfig with
    | Some property => Some property
    | None => key classConfig
    end.
Proof.
  unfold Decorator.finalConfig, Decorator.spread.
  cbn [threshold timeout fallbackResult key DEFAULT_CIRCUIT_BREAKER_CONFIG].
  destruct (threshold methodConfig), (threshold classConfig),
    (timeout methodConfig), (timeout classConfig),
    (fallbackResult methodConfig), (fallbackResult classConfig),
    (key methodConfig), (key classConfig); repeat split.
Qed.

(** A threshold that is there with the value [undefined] reaches the
    engine as it is; compared with it no counter is at or above the
    threshold, and the circuit is CLOSED whatever the counter holds. *)
Example undefined_threshold_never_opens :
  let methodConfig := Config (Some None) None None None in
  let final := Decorator.finalConfig empty_config methodConfig in
  threshold final = Some None /\
  Decorator.numberOf (threshold final) = JS.NotANumber /\
  stateIn payments (world_with "1000" None) "charge"
    (Decorator.numberOf (threshold final)) = CLOSED.
Proof. vm_compute. repeat split. Qed.

Lemma spread_empty (c : CircuitBreakerConfig) : Decorator.spread c empty_config = c.
Proof. destruct c; reflexivity. Qed.

(** X14.  The interceptor and the decorator protect a call in the same way:
    with the same class name and the same metadata (missing metadata
    counting as an empty configuration) they hand [execute] the same key,
    threshold, timeout and fallback, so a call behaves the same through
    either. *)
Theorem intercept_as_wrapped {E : Type} (options : CircuitBreakerModuleOptions)
    (className : string) (classConfig methodConfig : option CircuitBreakerConfig)
    (next : operation E) :
  Interceptor.intercept options className classConfig methodConfig next =
  Decorator.wrapped (Some options) className
    (default empty_config classConfig) (default empty_config methodConfig) next.
Proof.
  unfold Interceptor.intercept, Decorator.wrapped,
    Interceptor.getCircuitBreakerConfig, Decorator.redisKey, Decorator.finalConfig.
  destruct classConfig as [cc|], methodConfig as [mc|];
    cbn [Interceptor.spread_metadata from_option id threshold timeout fallbackResult key];
    rewrite ?spread_empty; reflexivity.
Qed.

Lemma missing_false (s : option string) :
  CircuitBreakerModule.missing s = false <-> exists v, s = Some v /\ v <> "".
Proof.
  unfold CircuitBreakerModule.missing. destruct s as [v|].
  - destruct (String.eqb_spec v ""); split; try discriminate.
    + intros (v' & [= <-] & Hv). congruence.
    + intros _. eauto.
    + reflexivity.
  - split; [discriminate|]. intros (v & [=] & _).
Qed.

(** X15.  [forRoot] accepts exactly the options with a non-empty service
    name, a non-empty host and a port that is not [undefined]: any number,
    0 included, and [null] as well.  It provides them unchanged.  With
    accepted options the engine never falls back to the service name
    [service] nor the connection to [localhost]; the connection uses the
    port given, and 6379 when the port is [null]. *)
Theorem forRoot_accepts_iff (o : CircuitBreakerModule.options) :
  (forall o', CircuitBreakerModule.forRoot o = inr o' -> o' = o) /\
  ((exists o', CircuitBreakerModule.forRoot o = inr o') <->
   exists name host port,
     o = CircuitBreakerModule.ModuleOptions (Some name) (Some host) (Some port) /\
     name <> "" /\ host <> "" /\
     getCircuitBreakerServiceName (CircuitBreakerModule.engineOptions o) = name /\
     CircuitBreakerModule.connection o = (host, default 6379 port)).
Proof.
  split.
  - intros o'. unfold CircuitBreakerModule.forRoot.
    destruct (_ || _); [discriminate|]. now intros [= <-].
  - unfold CircuitBreakerModule.forRoot. split.
    + intros [o' Haccepted].
      destruct (CircuitBreakerModule.missing (CircuitBreakerModule.optServiceName o))
        eqn:Hname; [discriminate|].
      destruct (CircuitBreakerModule.missing (CircuitBreakerModule.optRedisHost o))
        eqn:Hhost; [discriminate|].
      apply missing_false in Hname as (name & Hname & Hname').
      apply missing_false in Hhost as (host & Hhost & Hhost').
      destruct o as [sn rh [port|]]; cbn in *; [|discriminate]. subst sn rh.
      exists name, host, port. repeat split; assumption.
    + intros (name & host & port & -> & Hname & Hhost & _).
      cbn [CircuitBreakerModule.optServiceName CircuitBreakerModule.optRedisHost
           CircuitBreakerModule.optRedisPort].
      assert (Hn : CircuitBreakerModule.missing (Some name) = false)
        by (apply missing_false; eauto).
      assert (Hh : CircuitBreakerModule.missing (Some host) = false)
        by (apply missing_false; eauto).
      rewrite Hn, Hh. cbn. eauto.
Qed.

(** A port of [null] passes the check of [forRoot], and the connection
    then goes to 6379. *)
Example forRoot_null_port :
  let o := CircuitBreakerModule.ModuleOptions (Some "payments") (Some "redis") (Some None) in
  CircuitBreakerModule.forRoot o = inr o /\
  CircuitBreakerModule.connection o = ("redis", 6379).
Proof. vm_compute. split; reflexivity. Qed.

(** X16.  What is stored is read back: after [set(key, value)], [get(key)]
    resolves with the value; after [del(key)] it resolves with [null];
    and [incr(key)] on the deleted key resolves with 1. *)
Theorem stored_value_round_trip {E : Type} (k v : string) (w : world E) :
  fst (RedisService.get k (snd (RedisService.set k v w))) = Resolved (Some v) /\
  fst (RedisService.get k (snd (RedisService.del k w))) = Resolved None /\
  fst (RedisService.incr k (snd (RedisService.del k w))) = Resolved 1.
Proof.
  assert (Hdel : db (snd (RedisService.del k w)) !! k = None).
  { unfold RedisService.del, RedisService.send, bind, ret.
    cbn [Redis.exec_command]. unfold Redis.del.
    destruct (db w !! k) eqn:Hk; cbn [snd db]; [apply lookup_delete_eq | exact Hk]. }
  repeat split.
  - unfold RedisService.get, RedisService.set, RedisService.send, bind, ret.
    cbn [Redis.exec_command Redis.set snd db]. unfold Redis.get.
    now rewrite lookup_insert_eq.
  - unfold RedisService.get, RedisService.send, bind, ret.
    cbn [Redis.exec_command]. unfold Redis.get. now rewrite Hdel.
  - unfold RedisService.incr, RedisService.send, bind, ret.
    cbn [Redis.exec_command]. unfold Redis.incr. now rewrite Hdel.
Qed.

(** A thenable fallback is not what the call resolves with: the promise
    of the async function follows it. *)
Example thenable_fallback_is_unwrapped :
  let w := world_with "3" (Some 10) in
  let op := succeeds (JS.Str "paid") in
  fst (execute payments op "charge" 3 10000
         (JS.Thenable (Resolved (JS.Str "unwrapped"))) w)
    = Resolved (JS.Str "unwrapped") /\
  fst (execute payments op "charge" 3 10000
         (JS.Thenable (Rejected (Error "thenable failed"))) w)
    = Rejected (Error "thenable failed").
Proof. vm_compute. split; reflexivity. Qed.

(* ===================================================================== *)
(** * The further properties at sample inputs *)
(* ===================================================================== *)

Lemma open_circuit_is_inert_witness :
  let w := world_with "3" (Some 10) in
  let w' := snd (execute payments (succeeds (JS.Str "paid")) "charge" 3 10000 JS.Undefined w) in
  stateIn payments w "charge" 3 = OPEN /\ db w' = db w /\ env w' = 0%nat.
Proof.
  intros w w'.
  assert (Hopen : stateIn payments w "charge" 3 = OPEN) by (vm_compute; reflexivity).
  split; [exact Hopen|].
  destruct (open_circuit_is_inert payments (succeeds (JS.Str "paid"))
              (fails (Error "unused")) "charge" 3 10000 JS.Undefined w Hopen)
    as (Hdb & Henv & _).
  split; [exact Hdb | exact Henv].
Defined.

Lemma open_outcome_by_truthiness_witness :
  let w := world_with "7" (Some 10) in
  stateIn payments w "charge" 3 = OPEN /\
  JS.truthy (JS.Str "later") = true /\
  plain (JS.Str "later") /\
  fst (execute payments (succeeds (JS.Str "paid")) "charge" 3 10000 (JS.Str "later") w)
    = Resolved (JS.Str "later").
Proof.
  intros w.
  assert (Hopen : stateIn payments w "charge" 3 = OPEN) by (vm_compute; reflexivity).
  assert (Htruthy : JS.truthy (JS.Str "later") = true) by reflexivity.
  assert (Hplain : plain (JS.Str "later")) by exact I.
  split; [exact Hopen|]. split; [exact Htruthy|]. split; [exact Hplain|].
  exact (proj2 (open_outcome_by_truthiness payments (succeeds (JS.Str "paid")) "charge"
                  3 10000 (JS.Str "later") w Hopen) Htruthy Hplain).
Defined.

Lemma subsecond_timeout_never_opens_witness :
  let w := world_with "2" None in
  let fn := fails (HttpException "Bad Gateway" 502) in
  let call w fn := snd (execute payments fn "charge" 3 500 JS.Undefined w) in
  stateIn payments w "charge" 3 = CLOSED /\
  stateIn payments (fold_left call [fn; fn; fn] w) "charge" 3 = CLOSED /\
  db (call w fn) !! chargeKey = None.
Proof.
  intros w fn call.
  assert (Hclosed : stateIn payments w "charge" 3 = CLOSED) by (vm_compute; reflexivity).
  assert (Htimeout : 0 <= 500 < 1000) by lia.
  assert (Hfn : fn (env w) = (Rejected (HttpException "Bad Gateway" 502), 1%nat))
    by reflexivity.
  assert (Hcount : countsAsFailure (HttpException "Bad Gateway" 502) = true)
    by reflexivity.
  split; [exact Hclosed|].
  destruct (subsecond_timeout_never_opens payments [fn; fn; fn] "charge" 3 500
              JS.Undefined w Htimeout Hclosed) as [Hstill Hgone].
  split; [exact Hstill|].
  exact (Hgone fn (HttpException "Bad Gateway" 502) 1%nat Hfn Hcount).
Defined.

Lemma unreadable_counter_failure_witness :
  let w := world_with "1.5" None in
  let original := HttpException "Bad Gateway" 502 in
  Redis.string2ll "1.5" = None /\
  stateIn payments w "charge" 3 = CLOSED /\
  db (snd (execute payments (fails original) "charge" 3 10000 JS.Undefined w)) !! chargeKey
    = Some (Redis.Entry "1.5" (Some (10000 / 1000))).
Proof.
  intros w original.
  assert (Hstored : db w !! getCircuitBreakerKey payments "charge"
                    = Some (Redis.Entry "1.5" None)) by (vm_compute; reflexivity).
  assert (Hbad : Redis.string2ll "1.5" = None) by (vm_compute; reflexivity).
  assert (Hclosed : stateIn payments w "charge" 3 = CLOSED) by (vm_compute; reflexivity).
  assert (Hfn : fails original (env w) = (Rejected original, 1%nat)) by reflexivity.
  assert (Hcount : countsAsFailure original = true) by reflexivity.
  assert (Htimeout : 1000 <= 10000 <= JS.MAX_SAFE_INTEGER).
  { vm_compute. split; discriminate. }
  split; [exact Hbad|]. split; [exact Hclosed|].
  destruct (unreadable_counter_failure payments (fails original) "charge" 3 10000
              JS.Undefined w original 1%nat "1.5" None
              Hstored Hbad Hclosed Hfn Hcount Htimeout) as (_ & Hdb & _).
  exact Hdb.
Defined.

Lemma execute_keeps_counter_within_witness :
  let w := world_with "2" (Some 10) in
  let fn := fails (HttpException "Bad Gateway" 502) in
  counterWithin (db w) chargeKey 3 /\
  counterWithin (db (snd (execute payments fn "charge" 3 10000 JS.Undefined w))) chargeKey 3.
Proof.
  intros w fn.
  assert (Hthreshold : 1 <= 3 <= Redis.LLONG_MAX).
  { vm_compute. split; discriminate. }
  assert (Hwithin : counterWithin (db w) (getCircuitBreakerKey payments "charge") 3).
  { right. exists 2, (Some 10). split; [vm_compute; reflexivity | lia]. }
  split; [exact Hwithin|].
  exact (execute_keeps_counter_within payments fn "charge" 3 10000 JS.Undefined w
           Hthreshold Hwithin).
Defined.

Lemma consecutive_failures_open_the_circuit_witness :
  let fn := fails (HttpException "Internal Server Error" 500) in
  let w3 :=
    Nat.iter 3 (fun w => snd (execute payments fn "charge" 3 10000 JS.Undefined w))
      fresh_world in
  db w3 !! chargeKey = Some (Redis.Entry (JS.toString 3) (Some (10000 / 1000))) /\
  stateIn payments w3 "charge" 3 = OPEN.
Proof.
  intros fn w3.
  assert (Habsent : db fresh_world !! getCircuitBreakerKey payments "charge" = None)
    by reflexivity.
  assert (Hfails : forall e : nat, exists error e',
            fn e = (Rejected error, e') /\ countsAsFailure error = true).
  { intros e. exists (HttpException "Internal Server Error" 500), (S e).
    split; reflexivity. }
  assert (Htimeout : 1000 <= 10000 <= JS.MAX_SAFE_INTEGER).
  { vm_compute. split; discriminate. }
  assert (Hthreshold : 1 <= 3 <= JS.MAX_SAFE_INTEGER).
  { vm_compute. split; discriminate. }
  assert (Hn : Z.of_nat 3 <= 3) by (vm_compute; discriminate).
  destruct (consecutive_failures_open_the_circuit payments fn "charge" 3 10000
              JS.Undefined fresh_world 3 Habsent Hfails Htimeout Hthreshold Hn)
    as (Hdb & _ & Hstate).
  split; [exact Hdb | exact Hstate].
Defined.

Lemma getCircuitBreakerKey_inj_witness :
  getCircuitBreakerKey payments "charge" = getCircuitBreakerKey payments "charge" /\
  "charge" = "charge".
Proof.
  split; [reflexivity|].
  apply (getCircuitBreakerKey_inj payments "charge" "charge"). reflexivity.
Defined.

Lemma circuits_are_isolated_witness :
  let w := world_with "2" (Some 10) in
  let fn := fails (HttpException "Bad Gateway" 502) in
  "refund" <> "charge" /\
  stateIn payments (snd (execute payments fn "charge" 3 10000 JS.Undefined w)) "refund" 1
    = stateIn payments w "refund" 1.
Proof.
  intros w fn.
  assert (Hkey : "refund" <> "charge") by discriminate.
  split; [exact Hkey|].
  exact (proj2 (circuits_are_isolated payments fn "charge" "refund" 3 1 10000
                  JS.Undefined w Hkey)).
Defined.

Lemma countsAsFailure_valid_status_witness :
  100 <= 503 <= 599 /\
  (countsAsFailure (HttpException "Service Unavailable" 503) = true <->
   500 <= 503 <= 599 \/ 503 = 429).
Proof.
  assert (Hvalid : 100 <= 503 <= 599) by lia.
  split; [exact Hvalid|].
  exact (countsAsFailure_valid_status "Service Unavailable" 503 Hvalid).
Defined.

